(** * Turtle herder (rocon_service_turtlesim/scripts/turtle_herder_v2.py)

    A shallow embedding of the herder script and its properties.

    The script is a Python 2 program (classic class [TurtleHerder], so its
    [__slots__] list is inert).  It is modelled with explicit state passing:
    one record holds the two mutable fields of the herder instance and the
    temporary files on disk, and every operation yields, with its outcome
    and the new state, the list of the calls it made to the outside
    (backend services, gateway, operating system), in order.  The answers
    of the outside world are inputs of each operation.  Python exceptions
    are an outcome of their own; a state change made before an exception is
    raised stays, as in Python. *)

From Stdlib Require QArith.
From Stdlib Require Import Ascii.
From stdpp Require Import base decidable option list strings pretty gmap.

Local Open Scope string_scope.
Local Open Scope list_scope.
Local Open Scope nat_scope.

(** ** Strings of the source *)

(** The two characters that the source's string literals need and that are
    written by their code here: the line feed and the double quote. *)
Definition nl : string := String "010"%char EmptyString.
Definition dq : string := String "034"%char EmptyString.

(** [str(count)], [str(port)]: the decimal numeral of a non-negative
    integer. *)
Definition str (n : nat) : string := pretty n.

(** ** Python values and name resolution *)

Inductive pyval : Type :=
| PyModule (name : string)
| PyFunction (name : string)
| PyClass (name : string)
| PyInstance (cls : string)
| PyString (s : string)
| PyMessage (name : string).   (* a request message with a [name] field *)

Inductive exn : Type :=
| NameError (name : string)
| AttributeError (attr : string)
| ValueError
| ServiceException
| ROSInterruptException
| OSError.

(** The module namespace after the script has run down to its launch
    point: the imports of lines 24-38, the function of line 45, the classes
    of lines 59 and 69, the instance bound at line 242, and the names every
    module has. *)
Definition module_globals : gmap string pyval :=
  list_to_map
    [ ("__name__", PyString "__main__");
      ("__doc__", PyString EmptyString);
      ("__builtins__", PyModule "__builtin__");
      ("os", PyModule "os");
      ("signal", PyModule "signal");
      ("subprocess", PyModule "subprocess");
      ("tempfile", PyModule "tempfile");
      ("math", PyModule "math");
      ("random", PyModule "random");
      ("copy", PyModule "copy");
      ("rospy", PyModule "rospy");
      ("rocon_gateway_utils", PyModule "rocon_gateway_utils");
      ("rocon_python_utils", PyModule "rocon_python_utils");
      ("turtlesim_srvs", PyModule "turtlesim.srv");
      ("rocon_tutorial_srvs", PyModule "rocon_tutorial_msgs.srv");
      ("gateway_msgs", PyModule "gateway_msgs.msg");
      ("gateway_srvs", PyModule "gateway_msgs.srv");
      ("prepare_rocon_launch_text", PyFunction "prepare_rocon_launch_text");
      ("ProcessInfo", PyClass "ProcessInfo");
      ("TurtleHerder", PyClass "TurtleHerder");
      ("turtle_herder", PyInstance "TurtleHerder") ].

(** The attributes that [__init__] (lines 87-109) sets on the instance. *)
Definition instance_attributes : list string :=
  [ "turtles"; "_process_info";
    "_kill_turtle_service_client"; "_spawn_turtle_service_client";
    "_kill_turtle_service"; "_spawn_turtle_service";
    "_gateway_flip_service" ].

(** The names bound in the body of [class TurtleHerder] (lines 69-231). *)
Definition class_attributes : list string :=
  [ "__doc__"; "__module__"; "__slots__"; "__init__";
    "_kill_turtle_service"; "_spawn_turtle_service"; "spawn_turtles";
    "_send_flip_rules_request"; "shutdown"; "signal_handler" ].

(** [self.attr]: the instance dictionary first, then the class. *)
Definition hasattr_self (attr : string) : bool :=
  bool_decide (attr ∈ instance_attributes) || bool_decide (attr ∈ class_attributes).

(** ** Data *)

Inductive Signal : Type := SIGTERM | SIGHUP.

(** [ProcessInfo] (lines 59-62): the [Popen] handle, by its pid, and the
    temporary file, by its path. *)
Record ProcessInfo : Type := mkProcessInfo {
  process : nat;
  temp_file : string
}.

Inductive ConnectionType : Type := SUBSCRIBER | PUBLISHER.

Record Rule : Type := mkRule {
  rule_node : string;
  rule_type : ConnectionType;
  rule_name : string
}.

Record RemoteRule : Type := mkRemoteRule {
  gateway : string;
  rule : Rule
}.

Record RemoteRequest : Type := mkRemoteRequest {
  cancel : bool;
  remotes : list RemoteRule
}.

(** Everything the herder does to the outside, in the order it does it.
    An event records that the call was made; its answer is an input. *)
Inductive event : Type :=
| EvBackendKill (name : string)
| EvBackendSpawn (x y theta : QArith_base.Q) (name : string)
| EvGatewayFlip (request : RemoteRequest)
| EvPairReply
| EvLogErr (text : string)
| EvLogInfo (text : string)
| EvPrint (text : string)
| EvTempFile (path : string)
| EvWrite (path : string) (text : string)
| EvPopen (argv : list string)
| EvSignal (pid : nat) (sig : Signal)
| EvUnlink (path : string).

(** The answer of a remote service call. *)
Inductive reply : Type :=
| Answered
| Failed          (* rospy.ServiceException: communication failed *)
| Interrupted.    (* rospy.ROSInterruptException *)

Record State : Type := mkState {
  turtles : list string;              (* self.turtles *)
  _process_info : list ProcessInfo;   (* self._process_info *)
  files : gset string                 (* temporary files on disk *)
}.

Definition set_turtles (l : list string) (s : State) : State :=
  mkState l (_process_info s) (files s).
Definition set_process_info (l : list ProcessInfo) (s : State) : State :=
  mkState (turtles s) l (files s).
Definition set_files (l : gset string) (s : State) : State :=
  mkState (turtles s) (_process_info s) l.

(** The state that [__init__] leaves (lines 88-89), with no temporary file
    on disk. *)
Definition init_state : State := mkState [] [] ∅.

(** ** Outcomes and the monad of the handlers *)

Inductive outcome (A : Type) : Type :=
| Return (a : A)
| Raise (e : exn)
| OutOfFuel.
Arguments Return {A} a.
Arguments Raise {A} e.
Arguments OutOfFuel {A}.

(** What running an operation gives: how it ended, the state it left and
    the calls it made, oldest first. *)
Record result (A : Type) : Type := mkResult {
  outcome_of : outcome A;
  state_of : State;
  events_of : list event
}.
Arguments mkResult {A} _ _ _.
Arguments outcome_of {A} _.
Arguments state_of {A} _.
Arguments events_of {A} _.

Definition M (A : Type) : Type := State → result A.

Definition ret {A} (a : A) : M A := λ s, mkResult (Return a) s [].
Definition raise {A} (e : exn) : M A := λ s, mkResult (Raise e) s [].
Definition out_of_fuel {A} : M A := λ s, mkResult OutOfFuel s [].

(** [r], with [evs] made before it. *)
Definition after {A} (evs : list event) (r : result A) : result A :=
  mkResult (outcome_of r) (state_of r) (evs ++ events_of r).

Definition bind {A B} (m : M A) (k : A → M B) : M B := λ s,
  let r := m s in
  match outcome_of r with
  | Return a => after (events_of r) (k a (state_of r))
  | Raise e => mkResult (Raise e) (state_of r) (events_of r)
  | OutOfFuel => mkResult OutOfFuel (state_of r) (events_of r)
  end.
Definition get : M State := λ s, mkResult (Return s) s [].
Definition modify (f : State → State) : M unit := λ s, mkResult (Return tt) (f s) [].
Definition log (e : event) : M unit := λ s, mkResult (Return tt) s [e].

(** [try: body except ...: handler]: [handler e] is [None] for an
    exception that no [except] clause names. *)
Definition try_except {A} (body : M A) (handler : exn → option (M A)) : M A := λ s,
  let r := body s in
  match outcome_of r with
  | Raise e =>
      match handler e with
      | Some h => after (events_of r) (h (state_of r))
      | None => r
      end
  | _ => r
  end.

Declare Scope herder_scope.
Delimit Scope herder_scope with herder.
Notation "'let*' x ':=' m 'in' k" := (bind m (λ x, k))
  (at level 10, x name, m at level 100, k at level 200) : herder_scope.
Notation "m ;;; k" := (bind m (λ _, k))
  (at level 100, right associativity) : herder_scope.
Local Open Scope herder_scope.

(** A call of a [rospy.ServiceProxy]: the call is recorded, then it
    returns or raises according to the answer. *)
Definition service_call (e : event) (r : reply) : M unit :=
  log e ;;;
  match r with
  | Answered => ret tt
  | Failed => raise ServiceException
  | Interrupted => raise ROSInterruptException
  end.

(** A global name read inside a function that has no local of that name
    (and that is no builtin). *)
Definition load_global (G : gmap string pyval) (name : string) : M pyval :=
  match G !! name with
  | Some v => ret v
  | None => raise (NameError name)
  end.

(** [v.name] *)
Definition getattr_name (v : pyval) : M string :=
  match v with
  | PyMessage n => ret n
  | _ => raise (AttributeError "name")
  end.

(** [self.attr] for an attribute that is looked up by name. *)
Definition getattr_self (attr : string) : M unit :=
  if hasattr_self attr then ret tt else raise (AttributeError attr).

(** ** The launch text (lines 45-56) *)

(** The five lines that one pass of the loop appends (lines 49-53). *)
Definition launch_line (name : string) (port : nat) : string :=
  "  <launch title=" +:+ dq +:+ name +:+ ":114" +:+ str port +:+ dq
  +:+ " package=" +:+ dq +:+ "rocon_service_turtlesim" +:+ dq
  +:+ " name=" +:+ dq +:+ "turtle.launch" +:+ dq
  +:+ " port=" +:+ dq +:+ "114" +:+ str port +:+ dq +:+ ">" +:+ nl.
Definition turtle_name_line (name : string) : string :=
  "    <arg name=" +:+ dq +:+ "turtle_name" +:+ dq
  +:+ " value=" +:+ dq +:+ name +:+ dq +:+ "/>" +:+ nl.
Definition concert_whitelist_line : string :=
  "    <arg name=" +:+ dq +:+ "turtle_concert_whitelist" +:+ dq
  +:+ " value=" +:+ dq
  +:+ "Turtle Concert;Turtle Teleop Concert;Concert Tutorial"
  +:+ dq +:+ "/>" +:+ nl.
Definition rapp_whitelist_line : string :=
  "    <arg name=" +:+ dq +:+ "turtle_rapp_whitelist" +:+ dq
  +:+ " value=" +:+ dq +:+ "[rocon_apps, turtle_concert]" +:+ dq
  +:+ "/>" +:+ nl.
Definition launch_close_line : string := "  </launch>" +:+ nl.

(** [for name in turtles: ...] with its two running variables. *)
Fixpoint launch_text_loop (turtles : list string) (port : nat)
    (launch_text : string) : string :=
  match turtles with
  | [] => launch_text
  | name :: rest =>
      let launch_text := launch_text +:+ launch_line name port in
      let launch_text := launch_text +:+ turtle_name_line name in
      let launch_text := launch_text +:+ concert_whitelist_line in
      let launch_text := launch_text +:+ rapp_whitelist_line in
      let launch_text := launch_text +:+ launch_close_line in
      let port := port + 1 in
      launch_text_loop rest port launch_text
  end.

Definition prepare_rocon_launch_text (turtles : list string) : string :=
  let port := 11 in
  let launch_text := "<concert>" +:+ nl in
  let launch_text := launch_text_loop turtles port launch_text in
  let launch_text := launch_text +:+ "</concert>" +:+ nl in
  launch_text.

(** ** Unique names (lines 136-142 and 165-170) *)

(** [while name + name_extension in self.turtles: ...].  The loop has no
    bound of its own; [fuel] counts the tests of the condition that are
    left, and [None] is a run that has used them all. *)
Fixpoint unique_loop (fuel : nat) (registry : list string) (name : string)
    (name_extension : string) (count : nat) : option string :=
  match fuel with
  | O => None
  | S fuel' =>
      if bool_decide (name +:+ name_extension ∈ registry)
      then
        let name_extension := "_" +:+ str count in
        let count := count + 1 in
        unique_loop fuel' registry name name_extension count
      else Some name_extension
  end.

(** The loop run from [name_extension = ''] and [count = 0], with one more
    test than the registry has names. *)
Definition unique_extension (name : string) : M string := λ s,
  match unique_loop (S (length (turtles s))) (turtles s) name EmptyString 0 with
  | Some name_extension => ret name_extension s
  | None => out_of_fuel s
  end.

(** Lines 136-142, and 165-170 for one turtle: the requested name with the
    extension that the loop ends on. *)
Definition unique_name (name : string) : M string :=
  let* name_extension := unique_extension name in
  ret (name +:+ name_extension).

(** ** Routing rules (lines 185-211) *)

Definition flip_rules (name : string) : list Rule :=
  [ mkRule EmptyString SUBSCRIBER ("/services/turtlesim/" +:+ name +:+ "/cmd_vel");
    mkRule EmptyString PUBLISHER ("/services/turtlesim/" +:+ name +:+ "/pose") ].

Definition flip_request (name : string) (cancel : bool) : RemoteRequest :=
  mkRemoteRequest cancel (map (mkRemoteRule name) (flip_rules name)).

Definition _send_flip_rules_request (flip : reply) (name : string)
    (cancel : bool) : M unit :=
  let request := flip_request name cancel in
  try_except
    (service_call (EvGatewayFlip request) flip)
    (λ e, match e with
          | ServiceException =>
              Some (log (EvLogErr "TurtleHerder : failed to send flip rules"))
          | ROSInterruptException =>
              Some (log (EvLogInfo
                "TurtleHerder : shutdown while contacting the gateway flip service"))
          | _ => None
          end).

(** ** The spawn handler (lines 128-160) *)

(** The result is [response.name].  [x], [y] and [theta] are the three
    random draws of lines 145-147. *)
Definition _spawn_turtle_service (backend flip : reply)
    (x y theta : QArith_base.Q) (req_name : string) : M string :=
  let response_name := EmptyString in
  let* name := unique_name req_name in
  let* returned :=
    try_except
      (service_call (EvBackendSpawn x y theta name) backend ;;;
       modify (λ s, set_turtles (turtles s ++ [name]) s) ;;;
       ret None)
      (λ e, match e with
            | ServiceException =>
                Some (log (EvLogErr
                  "TurtleHerder : failed to contact the internal spawn turtle service") ;;;
                  ret (Some response_name))
            | ROSInterruptException =>
                Some (log (EvLogInfo
                  "TurtleHerder : shutdown while contacting the internal spawn turtle service") ;;;
                  ret (Some response_name))
            | _ => None
            end) in
  match returned with
  | Some response => ret response
  | None =>
      _send_flip_rules_request flip name false ;;;
      let response_name := name in
      ret response_name
  end.

(** ** The kill handler (lines 111-126) *)

(** [l.remove(x)] on a Python list: the first occurrence goes; there is
    no result when [x] does not occur. *)
Fixpoint remove_first (x : string) (l : list string) : option (list string) :=
  match l with
  | [] => None
  | y :: l' =>
      if decide (x = y) then Some l'
      else match remove_first x l' with
           | Some r => Some (y :: r)
           | None => None
           end
  end.

(** [self.turtles.remove(x)], which raises [ValueError] when [x] does not
    occur. *)
Definition turtles_remove (x : string) : M unit := λ s,
  match remove_first x (turtles s) with
  | Some l => mkResult (Return tt) (set_turtles l s) []
  | None => raise ValueError s
  end.

(** [G] is the module namespace in which the body looks up [msg], which is
    no local of the function: its parameters are [self] and [req]. *)
Definition _kill_turtle_service (G : gmap string pyval) (backend flip : reply)
    (req_name : string) : M unit :=
  let* msg := load_global G "msg" in
  let* msg_name := getattr_name msg in
  let internal_service_request := msg_name in
  let* returned :=
    try_except
      (service_call (EvBackendKill internal_service_request) backend ;;;
       turtles_remove req_name ;;;
       ret false)
      (λ e, match e with
            | ServiceException =>
                Some (log (EvLogErr
                  "Turtle Herder : failed to contact the internal kill turtle service") ;;;
                  ret false)
            | ROSInterruptException =>
                Some (log (EvLogInfo
                  "Turtle Herder : shutdown while contacting the internal kill turtle service") ;;;
                  ret true)
            | _ => None
            end) in
  if (returned : bool) then ret tt
  else
    getattr_self "_kill_turtle_service_pair_server" ;;;
    log EvPairReply ;;;
    _send_flip_rules_request flip req_name true.

(** ** Batch spawn (lines 162-183) *)

(** Lines 163-170: one name per requested turtle, each made unique against
    [self.turtles] as it is when the call starts. *)
Fixpoint batch_names (turtles : list string) : M (list string) :=
  match turtles with
  | [] => ret []
  | turtle_name :: rest =>
      let* unique := unique_name turtle_name in
      let* turtle_names := batch_names rest in
      ret (unique :: turtle_names)
  end.

(** The way Python shows a list of plain strings, as [print] of line 177
    does. *)
Definition repr_list (l : list string) : string :=
  "[" +:+ String.concat ", " (map (λ x, "'" +:+ x +:+ "'") l) +:+ "]".

(** [tmp] is the path that [tempfile.NamedTemporaryFile] picks, [hydro]
    the test of line 178, [launched] the pid of the process that
    [subprocess.Popen] starts, or [None] when it raises [OSError].  Line
    173 looks [_prepare_rocon_launch_text] up on [self]; past that lookup
    the call is taken to be the one of the module's function, whose
    parameters are [self] and [turtles]. *)
Definition spawn_turtles (tmp : string) (hydro : bool) (launched : option nat)
    (requested : list string) : M unit :=
  let* turtle_names := batch_names requested in
  log (EvTempFile tmp) ;;;
  modify (λ s, set_files ({[ tmp ]} ∪ files s) s) ;;;
  getattr_self "_prepare_rocon_launch_text" ;;;
  let rocon_launch_text := prepare_rocon_launch_text requested in
  log (EvPrint rocon_launch_text) ;;;
  log (EvWrite tmp rocon_launch_text) ;;;
  log (EvPrint ("Starting process "
                +:+ repr_list ["rocon_launch"; tmp; "--screen"])) ;;;
  let argv := if hydro then ["rocon_launch"; "--gnome"; tmp; "--screen"]
              else ["rocon_launch"; tmp; "--screen"] in
  log (EvPopen argv) ;;;
  match launched with
  | None => raise OSError
  | Some pid =>
      modify (λ s, set_turtles (turtles s ++ turtle_names) s) ;;;
      modify (λ s, set_process_info
                     (_process_info s ++ [mkProcessInfo pid tmp]) s)
  end.

(** ** Shutdown (lines 213-220) *)

(** [answers i] is the answer of the backend to the call for the name at
    position [i] of [self.turtles]. *)
Fixpoint shutdown_loop (answers : nat → reply) (i : nat)
    (names : list string) : M unit :=
  match names with
  | [] => ret tt
  | name :: rest =>
      let* broke :=
        try_except
          (service_call (EvBackendKill name) (answers i) ;;; ret false)
          (λ e, match e with
                | ServiceException => Some (ret true)
                | ROSInterruptException => Some (ret true)
                | _ => None
                end) in
      if (broke : bool) then ret tt
      else shutdown_loop answers (S i) rest
  end.

Definition shutdown (answers : nat → reply) : M unit :=
  let* s := get in
  shutdown_loop answers 0 (turtles s).

(** ** The interrupt handler (lines 222-231) *)

(** [os.kill(pid, sig)], which [Popen.terminate] and [Popen.send_signal]
    come down to; [delivered] tells whether the system accepts it. *)
Definition os_kill (delivered : bool) (pid : nat) (sig : Signal) : M unit :=
  log (EvSignal pid sig) ;;;
  if delivered then ret tt else raise OSError.

(** [os.unlink(path)], which raises [OSError] for a path that is not
    there. *)
Definition os_unlink (path : string) : M unit :=
  log (EvUnlink path) ;;;
  λ s, if bool_decide (path ∈ files s)
       then mkResult (Return tt) (set_files (files s ∖ {[ path ]}) s) []
       else raise OSError s.

Fixpoint signal_loop (delivered : nat → Signal → bool)
    (infos : list ProcessInfo) : M unit :=
  match infos with
  | [] => ret tt
  | process_info :: rest =>
      let pid := process process_info in
      log (EvPrint ("Pid: " +:+ str pid)) ;;;
      os_kill (delivered pid SIGTERM) pid SIGTERM ;;;
      try_except
        (os_kill (delivered pid SIGHUP) pid SIGHUP)
        (λ e, match e with
              | OSError => Some (log (EvPrint "OSERROR on SIGHUP"))
              | _ => None
              end) ;;;
      os_unlink (temp_file process_info) ;;;
      signal_loop delivered rest
  end.

Definition signal_handler (delivered : nat → Signal → bool) : M unit :=
  let* s := get in
  signal_loop delivered (_process_info s).

(** ** Runs of the herder *)

Inductive call : Type :=
| CallSpawn (backend flip : reply) (x y theta : QArith_base.Q) (name : string)
| CallKill (backend flip : reply) (name : string)
| CallSpawnTurtles (tmp : string) (hydro : bool) (launched : option nat)
    (names : list string)
| CallShutdown (answers : nat → reply)
| CallSignal (delivered : nat → Signal → bool).

(** The state after one call, whatever its outcome. *)
Definition step (s : State) (c : call) : State :=
  match c with
  | CallSpawn backend flip x y theta name =>
      state_of (_spawn_turtle_service backend flip x y theta name s)
  | CallKill backend flip name =>
      state_of (_kill_turtle_service module_globals backend flip name s)
  | CallSpawnTurtles tmp hydro launched names =>
      state_of (spawn_turtles tmp hydro launched names s)
  | CallShutdown answers => state_of (shutdown answers s)
  | CallSignal delivered => state_of (signal_handler delivered s)
  end.

Definition run (calls : list call) (s : State) : State := foldl step s calls.

(** ** Notions that the statements use *)

(** The value of [name_extension] when the loop tests its condition for
    the [k]-th time, counting from 0: empty at first, then [_0], [_1], ... *)
Definition extension_at (k : nat) : string :=
  match k with
  | O => EmptyString
  | S c => "_" +:+ str c
  end.

(** The name the loop tests at its [k]-th test. *)
Definition candidate (name : string) (k : nat) : string :=
  name +:+ extension_at k.

(** [m] never changes the part [f] of the state, however it ends. *)
Definition preserves {X A} (f : State → X) (m : M A) : Prop :=
  ∀ s, f (state_of (m s)) = f s.

(** The calls of [_send_flip_rules_request]: the submission, then the log
    line of the [except] clause that the answer leads to. *)
Definition flip_events (flip : reply) (name : string) (cancel : bool) : list event :=
  EvGatewayFlip (flip_request name cancel) ::
  match flip with
  | Answered => []
  | Failed => [EvLogErr "TurtleHerder : failed to send flip rules"]
  | Interrupted =>
      [EvLogInfo "TurtleHerder : shutdown while contacting the gateway flip service"]
  end.

(** What the handler prints when the hang-up signal is refused. *)
Definition hangup_events (delivered : bool) : list event :=
  if delivered then [] else [EvPrint "OSERROR on SIGHUP"].

(** The replies to a row of spawn requests for one name, each one answered
    by the backend.  Every request comes with the answer of the gateway
    and its three random draws. *)
Fixpoint spawn_repeat
    (envs : list (reply * QArith_base.Q * QArith_base.Q * QArith_base.Q))
    (name : string) (s : State) : list (outcome string) :=
  match envs with
  | [] => []
  | (flip, x, y, theta) :: rest =>
      let r := _spawn_turtle_service Answered flip x y theta name s in
      outcome_of r :: spawn_repeat rest name (state_of r)
  end.

(** The launcher's document as the interface describes it: one launch
    entry per agent, each with a title, a port and the fixed whitelist
    arguments.  [launch_entry] and [concert_document] follow that
    description, with the port of an entry given as a numeral; they are
    compared with the text that the source builds. *)
Definition launch_entry (name port : string) : string :=
  "  <launch title=" +:+ dq +:+ name +:+ ":" +:+ port +:+ dq
  +:+ " package=" +:+ dq +:+ "rocon_service_turtlesim" +:+ dq
  +:+ " name=" +:+ dq +:+ "turtle.launch" +:+ dq
  +:+ " port=" +:+ dq +:+ port +:+ dq +:+ ">" +:+ nl
  +:+ turtle_name_line name
  +:+ concert_whitelist_line
  +:+ rapp_whitelist_line
  +:+ launch_close_line.

Definition concert_document (entries : list (string * string)) : string :=
  "<concert>" +:+ nl
  +:+ foldr (λ entry rest, launch_entry entry.1 entry.2 +:+ rest)
        ("</concert>" +:+ nl) entries.

(** The port that the source writes into the entry at position [i],
    counted from 0: the digits 114, then the numeral of the counter, which
    starts at 11. *)
Definition entry_port (i : nat) : string := "114" +:+ str (11 + i).

(** ** Construction and launch point (lines 87-109 and 238-253) *)

(** How a call ends that the script makes outside any [try] block and
    without a timeout: it returns, it raises an exception, which nothing
    catches, or it never returns. *)
Inductive ending : Type :=
| Returns
| Raises (e : exn)
| Blocks.

(** Such a call.  [OutOfFuel] is the outcome of a run that does not
    return. *)
Definition unguarded (w : ending) : M unit :=
  match w with
  | Returns => ret tt
  | Raises e => raise e
  | Blocks => out_of_fuel
  end.

(** What the outside answers to a construction, in the order of the
    lines. *)
Record init_answers : Type := mkInitAnswers {
  wait_kill : ending;        (* line 91: rospy.wait_for_service *)
  wait_spawn : ending;       (* line 92: rospy.wait_for_service *)
  first_kill : reply;        (* line 97: the kill of "turtle1" *)
  resolve_gateway : ending;  (* line 107: resolve_local_gateway *)
  wait_flip : ending         (* line 108: rospy.wait_for_service *)
}.

(** [__init__]: the result is the list of the attributes that the call has
    set on the instance, in the order of the assignments.  The making of
    the two proxies (lines 93-94), of the two frontend services (lines
    104-105) and of the gateway proxy (line 109) makes no call that the
    log records. *)
Definition __init__ (a : init_answers) : M (list string) :=
  modify (set_turtles []) ;;;
  modify (set_process_info []) ;;;
  unguarded (wait_kill a) ;;;
  unguarded (wait_spawn a) ;;;
  let attrs := ["turtles"; "_process_info";
                "_kill_turtle_service_client"; "_spawn_turtle_service_client"] in
  let* returned :=
    try_except
      (service_call (EvBackendKill "turtle1") (first_kill a) ;;; ret false)
      (λ e, match e with
            | ServiceException =>
                Some (log (EvLogErr
                  "Turtle Herder : failed to contact the internal kill turtle service") ;;;
                  ret false)
            | ROSInterruptException =>
                Some (log (EvLogInfo
                  "Turtle Herder : shutdown while contacting the internal kill turtle service") ;;;
                  ret true)
            | _ => None
            end) in
  if (returned : bool) then ret attrs
  else
    let attrs := attrs ++ ["_kill_turtle_service"; "_spawn_turtle_service"] in
    unguarded (resolve_gateway a) ;;;
    unguarded (wait_flip a) ;;;
    ret (attrs ++ ["_gateway_flip_service"]).


(** ** Further notions that the statements use *)

(** The log line that follows the first kill. *)
Definition first_kill_log (answer : reply) : list event :=
  match answer with
  | Answered => []
  | Failed =>
      [EvLogErr "Turtle Herder : failed to contact the internal kill turtle service"]
  | Interrupted =>
      [EvLogInfo
         "Turtle Herder : shutdown while contacting the internal kill turtle service"]
  end.

(** The name that a call puts into the registry: the reply to a spawn
    request that the backend answers. *)
Definition registered_by (c : call) (s : State) : list string :=
  match c with
  | CallSpawn Answered flip x y theta name =>
      match outcome_of (_spawn_turtle_service Answered flip x y theta name s) with
      | Return assigned => [assigned]
      | _ => []
      end
  | _ => []
  end.

Fixpoint registered (calls : list call) (s : State) : list string :=
  match calls with
  | [] => []
  | c :: rest => registered_by c s ++ registered rest (step s c)
  end.

(** The calls that the interrupt handler makes for one process record
    whose first signal is accepted. *)
Definition teardown_events (delivered : nat → Signal → bool)
    (info : ProcessInfo) : list event :=
  [EvPrint ("Pid: " +:+ str (process info));
   EvSignal (process info) SIGTERM; EvSignal (process info) SIGHUP]
  ++ hangup_events (delivered (process info) SIGHUP)
  ++ [EvUnlink (temp_file info)].

(** The temporary files that a row of calls asks for. *)
Definition temp_files_of (calls : list call) : list string :=
  omap (λ c, match c with
             | CallSpawnTurtles tmp _ _ _ => Some tmp
             | _ => None
             end) calls.

(** * Properties *)

(** ** The unique-name loop *)

Section unique_names.
Variable registry : list string.
Variable name : string.

Lemma extension_at_inj k1 k2 : extension_at k1 = extension_at k2 → k1 = k2.
Proof.
  destruct k1 as [|c1], k2 as [|c2]; simpl; try done.
  intros H. apply (inj (String.app "_")) in H. f_equal. unfold str in H.
  by apply (inj (pretty : nat → string)) in H.
Qed.

Global Instance candidate_inj : Inj (=) (=) (candidate name).
Proof.
  intros k1 k2 H. unfold candidate in H.
  apply (inj (String.app name)) in H. by apply extension_at_inj.
Qed.

(** One turn of the loop at its [k]-th test. *)
Lemma unique_loop_unfold fuel k :
  unique_loop (S fuel) registry name (extension_at k) k =
  if bool_decide (candidate name k ∈ registry)
  then unique_loop fuel registry name (extension_at (S k)) (S k)
  else Some (extension_at k).
Proof.
  simpl. unfold candidate. case_bool_decide; [|done].
  by rewrite Nat.add_1_r.
Qed.

(** What the loop returns is the extension of the first candidate, from
    the [k]-th on, that the registry does not hold. *)
Lemma unique_loop_Some fuel k ext :
  unique_loop fuel registry name (extension_at k) k = Some ext →
  ∃ j, k ≤ j ∧ ext = extension_at j ∧ (candidate name j ∉ registry) ∧
       (∀ i, k ≤ i < j → candidate name i ∈ registry).
Proof.
  revert k. induction fuel as [|fuel IH]; intros k; [done|].
  rewrite unique_loop_unfold. case_bool_decide as Hin.
  - intros (j & Hle & -> & Hout & Hbelow)%IH.
    exists j. split_and!; [lia|done|done|].
    intros i Hi. destruct (decide (i = k)) as [->|]; [done|].
    apply Hbelow. lia.
  - intros [= <-]. exists k. split_and!; [lia|done|done|]. intros i Hi. lia.
Qed.

(** A run that uses up its fuel found every candidate it tested in the
    registry. *)
Lemma unique_loop_None fuel k :
  unique_loop fuel registry name (extension_at k) k = None →
  ∀ i, k ≤ i < k + fuel → candidate name i ∈ registry.
Proof.
  revert k. induction fuel as [|fuel IH]; intros k; [intros _ i Hi; lia|].
  rewrite unique_loop_unfold. case_bool_decide as Hin; [|done].
  intros Hnone i Hi. destruct (decide (i = k)) as [->|]; [done|].
  apply (IH _ Hnone). lia.
Qed.

(** The registry cannot hold more distinct candidates than it has
    names, so one test more than its length is enough. *)
Lemma unique_loop_enough_fuel fuel k :
  length registry < fuel →
  is_Some (unique_loop fuel registry name (extension_at k) k).
Proof.
  intros Hfuel.
  destruct (unique_loop fuel registry name (extension_at k) k) eqn:Hloop;
    [by eexists|].
  exfalso.
  pose proof (unique_loop_None _ _ Hloop) as Hall.
  assert (candidate name <$> seq k fuel ⊆+ registry) as Hsub.
  { apply NoDup_submseteq.
    - apply (NoDup_fmap_2 _), NoDup_seq.
    - intros x (i & -> & Hi%elem_of_seq)%list_elem_of_fmap. by apply Hall. }
  apply submseteq_length in Hsub.
  rewrite length_fmap, length_seq in Hsub. lia.
Qed.

(** More fuel does not change a result. *)
Lemma unique_loop_more_fuel fuel fuel' k ext :
  fuel ≤ fuel' →
  unique_loop fuel registry name (extension_at k) k = Some ext →
  unique_loop fuel' registry name (extension_at k) k = Some ext.
Proof.
  revert fuel' k. induction fuel as [|fuel IH]; intros fuel' k Hle; [done|].
  destruct fuel' as [|fuel']; [lia|].
  rewrite !unique_loop_unfold. case_bool_decide; [|done].
  apply IH. lia.
Qed.
End unique_names.

(** The loop of the handlers always ends, leaves the state as it is, calls
    nothing, and returns the extension of the first free candidate. *)
Lemma unique_extension_spec name s :
  ∃ j, unique_extension name s = mkResult (Return (extension_at j)) s [] ∧
       (candidate name j ∉ turtles s) ∧
       (∀ i, i < j → candidate name i ∈ turtles s).
Proof.
  unfold unique_extension.
  destruct (unique_loop_enough_fuel (turtles s) name (S (length (turtles s))) 0)
    as [ext Hext]; [lia|].
  change EmptyString with (extension_at 0). rewrite Hext.
  apply unique_loop_Some in Hext as (j & _ & -> & Hout & Hbelow).
  exists j. split_and!; [done|done|]. intros i Hi. apply Hbelow. lia.
Qed.

Lemma unique_name_spec name s :
  ∃ j, unique_name name s = mkResult (Return (candidate name j)) s [] ∧
       (candidate name j ∉ turtles s) ∧
       (∀ i, i < j → candidate name i ∈ turtles s).
Proof.
  destruct (unique_extension_spec name s) as (j & Hrun & Hout & Hbelow).
  exists j. split_and!; [|done..].
  unfold unique_name, bind. by rewrite Hrun.
Qed.

(** The first free candidate is determined by the registry. *)
Lemma first_free_unique (registry : list string) name j k :
  candidate name j ∉ registry → (∀ i, i < j → candidate name i ∈ registry) →
  candidate name k ∉ registry → (∀ i, i < k → candidate name i ∈ registry) →
  j = k.
Proof.
  intros Hj Hbj Hk Hbk.
  destruct (lt_eq_lt_dec j k) as [[Hlt| ->]|Hlt]; [|done|].
  - by destruct Hj; apply Hbk.
  - by destruct Hk; apply Hbj.
Qed.

(** ** What an operation leaves untouched *)

Section preserves.
Context {X : Type} (f : State → X).

Lemma preserves_ret {A} (a : A) : preserves f (ret a).
Proof. done. Qed.
Lemma preserves_raise {A} e : preserves f (@raise A e).
Proof. done. Qed.
Lemma preserves_get : preserves f get.
Proof. done. Qed.
Lemma preserves_log e : preserves f (log e).
Proof. done. Qed.

Lemma preserves_bind {A B} (m : M A) (k : A → M B) :
  preserves f m → (∀ a, preserves f (k a)) → preserves f (bind m k).
Proof.
  intros Hm Hk s. unfold bind. specialize (Hm s).
  destruct (outcome_of (m s)); simpl; [|done..].
  by rewrite Hk.
Qed.

Lemma preserves_try_except {A} (body : M A) handler :
  preserves f body → (∀ e h, handler e = Some h → preserves f h) →
  preserves f (try_except body handler).
Proof.
  intros Hb Hh s. unfold try_except. specialize (Hb s).
  destruct (outcome_of (body s)) as [|e|]; [done| |done].
  destruct (handler e) as [h|] eqn:He; [|done].
  simpl. by rewrite (Hh _ _ He).
Qed.

Lemma preserves_service_call e r : preserves f (service_call e r).
Proof.
  apply preserves_bind; [apply preserves_log|].
  intros _. destruct r; [apply preserves_ret|apply preserves_raise..].
Qed.

Lemma preserves_getattr_self attr : preserves f (getattr_self attr).
Proof.
  unfold getattr_self.
  destruct (hasattr_self attr); [apply preserves_ret|apply preserves_raise].
Qed.

Lemma preserves_unique_name name : preserves f (unique_name name).
Proof.
  intros s. destruct (unique_name_spec name s) as (j & -> & _). done.
Qed.

Lemma preserves_send_flip flip name cancel :
  preserves f (_send_flip_rules_request flip name cancel).
Proof.
  apply preserves_try_except; [apply preserves_service_call|].
  intros [] h [= <-]; apply preserves_log.
Qed.

Lemma preserves_batch_names names : preserves f (batch_names names).
Proof.
  induction names as [|name names IH]; [apply preserves_ret|].
  simpl. apply preserves_bind; [apply preserves_unique_name|].
  intros unique. apply preserves_bind; [done|].
  intros. apply preserves_ret.
Qed.

Lemma preserves_shutdown_loop answers i names :
  preserves f (shutdown_loop answers i names).
Proof.
  revert i. induction names as [|name names IH]; intros i; [apply preserves_ret|].
  simpl. apply preserves_bind.
  - apply preserves_try_except.
    + apply preserves_bind; [apply preserves_service_call|].
      intros. apply preserves_ret.
    + intros [] h [= <-]; apply preserves_ret.
  - intros []; [apply preserves_ret|apply IH].
Qed.

Lemma preserves_shutdown answers : preserves f (shutdown answers).
Proof.
  intros s. unfold shutdown, bind. simpl. apply preserves_shutdown_loop.
Qed.

Lemma preserves_os_kill delivered pid sig : preserves f (os_kill delivered pid sig).
Proof.
  apply preserves_bind; [apply preserves_log|].
  intros _. destruct delivered; [apply preserves_ret|apply preserves_raise].
Qed.

(** The interrupt handler changes the files on disk only. *)
Hypothesis f_set_files : ∀ l s, f (set_files l s) = f s.

Lemma preserves_os_unlink path : preserves f (os_unlink path).
Proof.
  apply preserves_bind; [apply preserves_log|].
  intros _ s. case_bool_decide; [apply f_set_files|done].
Qed.

Lemma preserves_signal_loop delivered infos :
  preserves f (signal_loop delivered infos).
Proof.
  induction infos as [|info infos IH]; [apply preserves_ret|].
  simpl.
  apply preserves_bind; [apply preserves_log|intros _].
  apply preserves_bind; [apply preserves_os_kill|intros _].
  apply preserves_bind; [|intros _].
  { apply preserves_try_except; [apply preserves_os_kill|].
    intros [] h [= <-]. apply preserves_log. }
  apply preserves_bind; [apply preserves_os_unlink|done].
Qed.

Lemma preserves_signal_handler delivered : preserves f (signal_handler delivered).
Proof.
  intros s. unfold signal_handler, bind. simpl. apply preserves_signal_loop.
Qed.
End preserves.

(** ** The runs of the two handlers, case by case *)

Lemma send_flip_run flip name cancel s :
  _send_flip_rules_request flip name cancel s =
  mkResult (Return tt) s (flip_events flip name cancel).
Proof. by destruct flip. Qed.

Lemma spawn_run backend flip x y theta name s j :
  unique_name name s = mkResult (Return (candidate name j)) s [] →
  _spawn_turtle_service backend flip x y theta name s =
  match backend with
  | Answered =>
      mkResult (Return (candidate name j))
        (set_turtles (turtles s ++ [candidate name j]) s)
        (EvBackendSpawn x y theta (candidate name j)
           :: flip_events flip (candidate name j) false)
  | Failed =>
      mkResult (Return EmptyString) s
        [EvBackendSpawn x y theta (candidate name j);
         EvLogErr "TurtleHerder : failed to contact the internal spawn turtle service"]
  | Interrupted =>
      mkResult (Return EmptyString) s
        [EvBackendSpawn x y theta (candidate name j);
         EvLogInfo "TurtleHerder : shutdown while contacting the internal spawn turtle service"]
  end.
Proof.
  intros Hname. unfold _spawn_turtle_service. unfold bind at 1. rewrite Hname.
  by destruct backend, flip.
Qed.

(** With the module's namespace the kill handler stops at its first line. *)
Lemma kill_run backend flip name s :
  _kill_turtle_service module_globals backend flip name s =
  mkResult (Raise (NameError "msg")) s [].
Proof. reflexivity. Qed.

(** The batch spawn stops at line 173, with the temporary file made. *)
Lemma spawn_turtles_run tmp hydro launched names s :
  spawn_turtles tmp hydro launched names s =
  mkResult (Raise (AttributeError "_prepare_rocon_launch_text"))
    (set_files ({[ tmp ]} ∪ files s) s) [EvTempFile tmp].
Proof.
  unfold spawn_turtles. unfold bind at 1.
  assert (∃ l, batch_names names s = mkResult (Return l) s []) as [l ->]; [|done].
  induction names as [|name names [l IH]]; [by eexists|].
  simpl. destruct (unique_name_spec name s) as (j & Hj & _).
  unfold bind. rewrite Hj. simpl. rewrite IH. by eexists.
Qed.

(** ** Appending strings *)

Lemma string_app_nil_r (s : string) : s +:+ EmptyString = s.
Proof.
  induction s as [|a s IH]; [done|].
  change (String a (s +:+ EmptyString) = String a s). by rewrite IH.
Qed.

Lemma string_app_assoc (s t u : string) : (s +:+ t) +:+ u = s +:+ (t +:+ u).
Proof.
  induction s as [|a s IH]; [done|].
  change (String a ((s +:+ t) +:+ u) = String a (s +:+ (t +:+ u))).
  by rewrite IH.
Qed.

Lemma candidate_0 name : candidate name 0 = name.
Proof. apply string_app_nil_r. Qed.

Lemma candidate_S name c : candidate name (S c) = name +:+ "_" +:+ str c.
Proof. done. Qed.

(** ** The registry holds no name twice *)

(** One call leaves the registry as it is or appends one name that was
    not in it. *)
Lemma step_turtles s c :
  turtles (step s c) = turtles s ∨
  ∃ name, (name ∉ turtles s) ∧ turtles (step s c) = turtles s ++ [name].
Proof.
  destruct c as [backend flip x y theta name|backend flip name
                |tmp hydro launched names|answers|delivered]; unfold step.
  - destruct (unique_name_spec name s) as (j & Hrun & Hout & _).
    rewrite (spawn_run _ _ _ _ _ _ _ _ Hrun).
    destruct backend; [right; by exists (candidate name j)|by left..].
  - left. by rewrite kill_run.
  - left. by rewrite spawn_turtles_run.
  - left. apply (preserves_shutdown turtles).
  - left. by apply preserves_signal_handler.
Qed.

Lemma step_NoDup s c : NoDup (turtles s) → NoDup (turtles (step s c)).
Proof.
  intros Hs. destruct (step_turtles s c) as [->|(name & Hout & ->)]; [done|].
  apply NoDup_app. split_and!; [done| |apply NoDup_singleton].
  intros x Hx ->%list_elem_of_singleton. done.
Qed.

Lemma run_NoDup calls s : NoDup (turtles s) → NoDup (turtles (run calls s)).
Proof.
  revert s. induction calls as [|c calls IH]; intros s Hs; [done|].
  simpl. by apply IH, step_NoDup.
Qed.

(** C1.  Whatever calls the herder receives after its construction -- spawn
    requests, kill requests, batch spawns, shutdowns and interrupts, with
    any names and any answers of the outside world -- its registry holds
    no name twice, after the whole sequence and after each of its
    prefixes.  The batch spawn adds nothing to the registry: it stops at
    line 173, before line 182. *)
Theorem registry_never_duplicates_C1 (calls : list call) (n : nat) :
  NoDup (turtles (run (take n calls) init_state)).
Proof. apply run_NoDup. apply NoDup_nil_2. Qed.

(** No call adds a process record: the only line that does, line 183, is
    behind the failing line 173.  The herder never has one. *)
Lemma step_process_info s c : _process_info (step s c) = _process_info s.
Proof.
  destruct c as [backend flip x y theta name|backend flip name
                |tmp hydro launched names|answers|delivered]; unfold step.
  - destruct (unique_name_spec name s) as (j & Hrun & _).
    rewrite (spawn_run _ _ _ _ _ _ _ _ Hrun). by destruct backend.
  - by rewrite kill_run.
  - by rewrite spawn_turtles_run.
  - apply (preserves_shutdown _process_info).
  - by apply preserves_signal_handler.
Qed.

Lemma run_process_info calls : _process_info (run calls init_state) = [].
Proof.
  change [] with (_process_info init_state). generalize init_state.
  induction calls as [|c calls IH]; intros s; [done|].
  simpl. by rewrite IH, step_process_info.
Qed.

(** The names that the first loop of the batch spawn computes are made
    unique against the registry only, not against one another. *)
Lemma batch_names_repeat :
  outcome_of (batch_names ["kobuki"; "kobuki"] init_state)
  = Return ["kobuki"; "kobuki"].
Proof. reflexivity. Qed.

(** ** Name allocation *)

(** From a registry that holds the candidates below [k] and none from [k]
    on, the replies are the candidates from [k] on, in order. *)
Lemma spawn_repeat_from envs name s k :
  (∀ i, i < k → candidate name i ∈ turtles s) →
  (∀ i, k ≤ i → candidate name i ∉ turtles s) →
  spawn_repeat envs name s
  = (λ i, Return (candidate name i)) <$> seq k (length envs).
Proof.
  revert s k. induction envs as [|[[[flip x] y] theta] envs IH]; intros s k Hin Hout;
    [done|].
  destruct (unique_name_spec name s) as (j & Hrun & Hj & Hbelow).
  assert (j = k) as ->.
  { apply (first_free_unique (turtles s) name); auto. }
  simpl. rewrite (spawn_run _ _ _ _ _ _ _ _ Hrun). simpl. f_equal.
  apply IH; simpl.
  - intros i Hi. apply elem_of_app.
    destruct (decide (i = k)) as [->|]; [right; by apply list_elem_of_singleton|].
    left. apply Hin. lia.
  - intros i Hi. apply not_elem_of_app. split; [apply Hout; lia|].
    intros Heq%list_elem_of_singleton. apply (inj (candidate name)) in Heq. lia.
Qed.

(** C2.  Name allocation (lines 136-142) returns the requested name as it
    is when the registry does not hold it; otherwise it returns the name
    with "_" and the first counter, counting from 0, whose candidate the
    registry does not hold.  Hence, from a registry that holds neither the
    name nor any of its suffixed forms, a row of answered spawn requests
    for the name is given the name itself and then, at the N-th collision,
    the name with "_" and N-1; two spawn requests for "kobuki" to a new
    herder are given "kobuki" and "kobuki_0". *)
Theorem name_allocation_C2 :
  (∀ name s, name ∉ turtles s →
     unique_name name s = mkResult (Return name) s []) ∧
  (∀ name s, name ∈ turtles s →
     ∃ c, unique_name name s = mkResult (Return (name +:+ "_" +:+ str c)) s [] ∧
          (name +:+ "_" +:+ str c ∉ turtles s) ∧
          (∀ i, i < c → name +:+ "_" +:+ str i ∈ turtles s)) ∧
  (∀ name s envs N,
     name ∉ turtles s → (∀ c, name +:+ "_" +:+ str c ∉ turtles s) →
     N < length envs →
     spawn_repeat envs name s !! N
     = Some (Return (match N with
                     | O => name
                     | S n => name +:+ "_" +:+ str n
                     end))) ∧
  (∀ e1 e2, spawn_repeat [e1; e2] "kobuki" init_state
            = [Return "kobuki"; Return "kobuki_0"]).
Proof.
  split_and!.
  - intros name s Hout.
    destruct (unique_name_spec name s) as (j & Hrun & Hj & Hbelow).
    destruct j as [|j]; [by rewrite Hrun, candidate_0|].
    destruct Hout. rewrite <-(candidate_0 name). apply Hbelow. lia.
  - intros name s Hin.
    destruct (unique_name_spec name s) as (j & Hrun & Hj & Hbelow).
    destruct j as [|c]; [by rewrite candidate_0 in Hj|].
    exists c. split_and!; [done|done|].
    intros i Hi. apply (Hbelow (S i)). lia.
  - intros name s envs N Hname Hsuffixed HN.
    rewrite (spawn_repeat_from envs name s 0).
    + rewrite list_lookup_fmap, lookup_seq_lt by done. simpl.
      destruct N; [by rewrite candidate_0|done].
    + intros i Hi. lia.
    + intros [|c] _; [by rewrite candidate_0|apply Hsuffixed].
  - intros [[[flip1 x1] y1] theta1] [[[flip2 x2] y2] theta2].
    rewrite (spawn_repeat_from _ "kobuki" init_state 0); [done|intros; lia|].
    intros i _. apply not_elem_of_nil.
Qed.

Lemma name_allocation_C2_witness :
  spawn_repeat
    (replicate 3 (Answered, QArith_base.Qmake 5 1, QArith_base.Qmake 4 1,
                  QArith_base.Qmake 1 2))
    "kobuki" (mkState ["guimul"] [] ∅) !! 2
  = Some (Return "kobuki_1").
Proof.
  apply (proj1 (proj2 (proj2 name_allocation_C2)) "kobuki"
           (mkState ["guimul"] [] ∅) _ 2).
  - simpl. rewrite list_elem_of_singleton. discriminate.
  - intros c. simpl. rewrite list_elem_of_singleton. discriminate.
  - simpl. lia.
Defined.

(** ** Failure of the backend on a spawn request *)

(** C3.  When the backend's spawn call fails with a communication error,
    the spawn handler replies with the empty name, leaves the registry as
    it was and submits nothing to the gateway. *)
Theorem spawn_backend_failure_C3 flip x y theta name s :
  let r := _spawn_turtle_service Failed flip x y theta name s in
  outcome_of r = Return EmptyString ∧
  turtles (state_of r) = turtles s ∧
  (∀ request, EvGatewayFlip request ∉ events_of r).
Proof.
  destruct (unique_name_spec name s) as (j & Hrun & _).
  simpl. rewrite (spawn_run _ _ _ _ _ _ _ _ Hrun). simpl.
  split_and!; [done..|].
  intros request Hin. repeat (apply elem_of_cons in Hin as [?|Hin]; [done|]).
  by apply elem_of_nil in Hin.
Qed.

(** ** The kill handler *)

(** C9.  The kill handler reads [msg], which is no parameter of it ([req]
    is) and no name of the module: every run of it ends with the
    unbound-name error before the backend is called.  No kill request
    changes the registry, sends a reply or submits anything to the
    gateway. *)
Theorem kill_always_name_error_C9 backend flip name s :
  let r := _kill_turtle_service module_globals backend flip name s in
  (module_globals !! "msg" = None) ∧
  outcome_of r = Raise (NameError "msg") ∧
  (∀ killed, EvBackendKill killed ∉ events_of r) ∧
  turtles (state_of r) = turtles s ∧
  (EvPairReply ∉ events_of r) ∧
  (∀ request, EvGatewayFlip request ∉ events_of r).
Proof.
  intros r. subst r. rewrite kill_run. cbn [outcome_of state_of events_of].
  split_and!; [reflexivity|reflexivity| |reflexivity| |];
    first [apply not_elem_of_nil | intros ?; apply not_elem_of_nil].
Qed.

(** The guarded block of the kill handler (lines 117-124) on its own: in
    any namespace, a failed backend call leaves the registry as it was. *)
Lemma kill_failed_keeps_turtles G flip name s :
  turtles (state_of (_kill_turtle_service G Failed flip name s)) = turtles s.
Proof.
  unfold _kill_turtle_service, load_global.
  destruct (G !! "msg") as [[]|]; [reflexivity..| |reflexivity].
  destruct flip; reflexivity.
Qed.

(** In a namespace that binds [msg] to a request, an answered backend call
    is followed by the removal: the registry loses the first occurrence of
    the requested name. *)
Lemma kill_answered_removes G msg_name flip name s l :
  G !! "msg" = Some (PyMessage msg_name) →
  remove_first name (turtles s) = Some l →
  turtles (state_of (_kill_turtle_service G Answered flip name s)) = l.
Proof.
  intros Hmsg Hremove. unfold _kill_turtle_service, load_global. rewrite Hmsg.
  unfold bind, try_except, service_call, turtles_remove. simpl.
  rewrite Hremove. reflexivity.
Qed.

(** C4, at a kill request for "kobuki", which a spawn request has
    registered, with a backend whose kill call fails.  Lines 117-126 are
    written to log that failure and then to reply and to submit the
    cancellation, but the handler ends at line 116 with the unbound-name
    error: the backend is not called, no reply is sent, no cancellation is
    submitted, and the registry holds the name as before. *)
Theorem kill_registered_name_C4 :
  let s := run [CallSpawn Answered Answered (QArith_base.Qmake 5 1)
                  (QArith_base.Qmake 4 1) (QArith_base.Qmake 1 2) "kobuki"]
             init_state in
  let r := _kill_turtle_service module_globals Failed Answered "kobuki" s in
  turtles s = ["kobuki"] ∧
  outcome_of r = Raise (NameError "msg") ∧
  (∀ name, EvBackendKill name ∉ events_of r) ∧
  (EvPairReply ∉ events_of r) ∧
  (EvGatewayFlip (flip_request "kobuki" true) ∉ events_of r) ∧
  turtles (state_of r) = ["kobuki"].
Proof.
  intros s r. subst r. rewrite kill_run.
  cbn [outcome_of state_of events_of].
  assert (turtles s = ["kobuki"]) as Hs by (vm_compute; reflexivity).
  split_and!; [exact Hs|reflexivity| | | |exact Hs];
    first [apply not_elem_of_nil | intros ?; apply not_elem_of_nil].
Qed.

(** C5 at a kill request for a name that was never spawned, with a backend
    that fails: the registry is left as it was, but the handler ends with
    the unbound-name error and submits no cancellation. *)
Theorem kill_unknown_name_C5 :
  let s := mkState ["kobuki"] [] ∅ in
  let r := _kill_turtle_service module_globals Failed Answered "guimul" s in
  ("guimul" ∉ turtles s) ∧
  outcome_of r = Raise (NameError "msg") ∧
  turtles (state_of r) = turtles s ∧
  EvGatewayFlip (flip_request "guimul" true) ∉ events_of r.
Proof.
  intros s r. subst r. rewrite kill_run. subst s.
  cbn [outcome_of state_of events_of turtles].
  split_and!; [|reflexivity|reflexivity|apply not_elem_of_nil].
  rewrite list_elem_of_singleton. discriminate.
Qed.

(** Were [msg] bound to the request, the handler would still not reach
    line 126 for a name that was never spawned: when the backend fails it
    stops at line 125, on an attribute that the instance does not have,
    and when the backend answers it stops at line 119, on the removal of a
    name that the registry does not hold. *)
Lemma kill_unknown_name_with_msg_bound :
  let G := <["msg" := PyMessage "guimul"]> module_globals in
  let s := mkState ["kobuki"] [] ∅ in
  _kill_turtle_service G Failed Answered "guimul" s
  = mkResult (Raise (AttributeError "_kill_turtle_service_pair_server")) s
      [EvBackendKill "guimul";
       EvLogErr "Turtle Herder : failed to contact the internal kill turtle service"] ∧
  _kill_turtle_service G Answered Answered "guimul" s
  = mkResult (Raise ValueError) s [EvBackendKill "guimul"].
Proof. split; vm_compute; reflexivity. Qed.

(** ** The batch spawn *)

(** C10.  The class has no attribute [_prepare_rocon_launch_text] (the
    builder is the module's function [prepare_rocon_launch_text]), so
    every batch spawn ends with the attribute error of line 173: no
    process is started, the registry and the process records are as they
    were, and the temporary file made at line 172 stays on disk. *)
Theorem spawn_turtles_always_attribute_error_C10 tmp hydro launched names s :
  let r := spawn_turtles tmp hydro launched names s in
  hasattr_self "_prepare_rocon_launch_text" = false ∧
  module_globals !! "prepare_rocon_launch_text"
  = Some (PyFunction "prepare_rocon_launch_text") ∧
  outcome_of r = Raise (AttributeError "_prepare_rocon_launch_text") ∧
  (∀ argv, EvPopen argv ∉ events_of r) ∧
  turtles (state_of r) = turtles s ∧
  _process_info (state_of r) = _process_info s ∧
  (EvTempFile tmp ∈ events_of r) ∧
  (∀ path, EvUnlink path ∉ events_of r) ∧
  tmp ∈ files (state_of r).
Proof.
  intros r. subst r. rewrite spawn_turtles_run.
  cbn [outcome_of state_of events_of set_files turtles _process_info files].
  split_and!; [reflexivity|reflexivity|reflexivity| |reflexivity|reflexivity| | |].
  - intros argv Hin. apply list_elem_of_singleton in Hin. discriminate.
  - by apply list_elem_of_singleton.
  - intros path Hin. apply list_elem_of_singleton in Hin. discriminate.
  - apply elem_of_union_l, elem_of_singleton. reflexivity.
Qed.

(** ** Shutdown *)

(** One pass of the shutdown loop: the call is made, and the loop goes on
    only when the backend answers. *)
Lemma shutdown_loop_cons answers i name rest s :
  shutdown_loop answers i (name :: rest) s =
  match answers i with
  | Answered => after [EvBackendKill name] (shutdown_loop answers (S i) rest s)
  | _ => mkResult (Return tt) s [EvBackendKill name]
  end.
Proof. simpl. unfold bind at 1. by destruct (answers i). Qed.

(** While the backend answers, the loop calls it for every name. *)
Lemma shutdown_loop_all answers i names s :
  (∀ j, j < length names → answers (i + j) = Answered) →
  shutdown_loop answers i names s
  = mkResult (Return tt) s (EvBackendKill <$> names).
Proof.
  revert i. induction names as [|name names IH]; intros i Hall; [done|].
  rewrite shutdown_loop_cons.
  rewrite <-(Nat.add_0_r i) at 1. rewrite (Hall 0) by (simpl; lia).
  rewrite IH; [done|].
  intros j Hj. replace (S i + j) with (i + S j) by lia. apply Hall. simpl. lia.
Qed.

(** The loop ends at the first call that the backend does not answer. *)
Lemma shutdown_loop_break answers i names k s :
  k < length names →
  (∀ j, j < k → answers (i + j) = Answered) →
  answers (i + k) ≠ Answered →
  shutdown_loop answers i names s
  = mkResult (Return tt) s (EvBackendKill <$> take (S k) names).
Proof.
  revert i k. induction names as [|name names IH]; intros i k Hk Hbefore Hfail;
    [simpl in Hk; lia|].
  rewrite shutdown_loop_cons. destruct k as [|k].
  - rewrite Nat.add_0_r in Hfail. destruct (answers i); [done|reflexivity..].
  - rewrite <-(Nat.add_0_r i) at 1. rewrite (Hbefore 0) by lia.
    rewrite (IH (S i) k); [done|simpl in Hk; lia| |].
    + intros j Hj. replace (S i + j) with (i + S j) by lia. apply Hbefore. lia.
    + by replace (S i + k) with (i + S k) by lia.
Qed.

(** C6, as the code has it.  Shutdown calls the backend's kill for the
    registered names in registry order and stops after the first call that
    fails (the [break] of lines 218 and 220): the names after it are not
    tried.  When no call fails, every registered name is tried.  The
    registry itself is left as it was. *)
Theorem shutdown_stops_at_first_failure_C6 answers s :
  (∀ k, k < length (turtles s) →
        (∀ j, j < k → answers j = Answered) →
        answers k ≠ Answered →
        shutdown answers s
        = mkResult (Return tt) s (EvBackendKill <$> take (S k) (turtles s))) ∧
  ((∀ j, j < length (turtles s) → answers j = Answered) →
   shutdown answers s = mkResult (Return tt) s (EvBackendKill <$> turtles s)).
Proof.
  split.
  - intros k Hk Hbefore Hfail. unfold shutdown, bind. cbn [get outcome_of state_of events_of].
    by rewrite (shutdown_loop_break answers 0 (turtles s) k s).
  - intros Hall. unfold shutdown, bind. cbn [get outcome_of state_of events_of].
    by rewrite (shutdown_loop_all answers 0 (turtles s) s).
Qed.

Lemma shutdown_stops_at_first_failure_C6_witness :
  shutdown (λ i, if decide (i = 1) then Failed else Answered)
    (mkState ["kobuki"; "guimul"; "kobuki_0"] [] ∅)
  = mkResult (Return tt) (mkState ["kobuki"; "guimul"; "kobuki_0"] [] ∅)
      [EvBackendKill "kobuki"; EvBackendKill "guimul"].
Proof.
  apply (proj1 (shutdown_stops_at_first_failure_C6
                  (λ i, if decide (i = 1) then Failed else Answered)
                  (mkState ["kobuki"; "guimul"; "kobuki_0"] [] ∅)) 1).
  - simpl. lia.
  - intros j Hj. assert (j = 0) as -> by lia. reflexivity.
  - simpl. discriminate.
Defined.

(** C6 as it is stated fails: with "kobuki" and "guimul" registered and a
    backend that fails on the first call, shutdown calls the backend for
    "kobuki" only; "guimul" is not tried. *)
Lemma shutdown_C6_counterexample :
  let s := mkState ["kobuki"; "guimul"] [] ∅ in
  let r := shutdown (λ _, Failed) s in
  ("guimul" ∈ turtles s) ∧
  events_of r = [EvBackendKill "kobuki"] ∧
  (EvBackendKill "guimul" ∉ events_of r).
Proof.
  intros s r. split_and!.
  - subst s. cbn [turtles]. apply elem_of_cons. right. by apply list_elem_of_singleton.
  - reflexivity.
  - change (events_of r) with [EvBackendKill "kobuki"].
    intros Hin%list_elem_of_singleton. discriminate.
Qed.

(** ** The interrupt handler *)

(** How a sequence runs, from the run of its first part. *)
Lemma bind_Return {A B} (m : M A) (k : A → M B) s a s' evs :
  m s = mkResult (Return a) s' evs → bind m k s = after evs (k a s').
Proof. intros Hm. unfold bind. by rewrite Hm. Qed.

Lemma bind_Raise {A B} (m : M A) (k : A → M B) s e s' evs :
  m s = mkResult (Raise e) s' evs → bind m k s = mkResult (Raise e) s' evs.
Proof. intros Hm. unfold bind. by rewrite Hm. Qed.


Lemma after_after {A} evs1 evs2 (r : result A) :
  after evs1 (after evs2 r) = after (evs1 ++ evs2) r.
Proof. unfold after. simpl. by rewrite app_assoc. Qed.

Lemma os_kill_run delivered pid sig s :
  os_kill delivered pid sig s =
  mkResult (if delivered then Return tt else Raise OSError) s [EvSignal pid sig].
Proof. by destruct delivered. Qed.

Lemma hangup_run delivered pid s :
  try_except (os_kill delivered pid SIGHUP)
    (λ e, match e with
          | OSError => Some (log (EvPrint "OSERROR on SIGHUP"))
          | _ => None
          end) s
  = mkResult (Return tt) s (EvSignal pid SIGHUP :: hangup_events delivered).
Proof. by destruct delivered. Qed.

Lemma os_unlink_run path s :
  os_unlink path s =
  if bool_decide (path ∈ files s)
  then mkResult (Return tt) (set_files (files s ∖ {[ path ]}) s) [EvUnlink path]
  else mkResult (Raise OSError) s [EvUnlink path].
Proof.
  unfold os_unlink, bind, log. cbn [outcome_of state_of events_of].
  by case_bool_decide.
Qed.

(** One pass of the loop of the interrupt handler. *)
Lemma signal_loop_cons delivered info rest s :
  signal_loop delivered (info :: rest) s =
  let pid := process info in
  let path := temp_file info in
  if delivered pid SIGTERM then
    let evs := [EvPrint ("Pid: " +:+ str pid); EvSignal pid SIGTERM;
                EvSignal pid SIGHUP]
               ++ hangup_events (delivered pid SIGHUP) ++ [EvUnlink path] in
    if bool_decide (path ∈ files s)
    then after evs (signal_loop delivered rest
                      (set_files (files s ∖ {[ path ]}) s))
    else mkResult (Raise OSError) s evs
  else
    mkResult (Raise OSError) s
      [EvPrint ("Pid: " +:+ str pid); EvSignal pid SIGTERM].
Proof.
  cbn [signal_loop]. cbv zeta.
  erewrite bind_Return by reflexivity.
  destruct (delivered (process info) SIGTERM) eqn:Hterm.
  - erewrite bind_Return by (rewrite os_kill_run; reflexivity).
    erewrite bind_Return by apply hangup_run.
    rewrite !after_after.
    case_bool_decide as Hfile.
    + erewrite bind_Return
        by (rewrite os_unlink_run, bool_decide_eq_true_2 by done; reflexivity).
      rewrite after_after. f_equal.
    + erewrite bind_Raise
        by (rewrite os_unlink_run, bool_decide_eq_false_2 by done; reflexivity).
      reflexivity.
  - erewrite bind_Raise by (rewrite os_kill_run; reflexivity).
    reflexivity.
Qed.

(** The loop deletes files and makes none. *)
Lemma signal_loop_files delivered infos s :
  files (state_of (signal_loop delivered infos s)) ⊆ files s.
Proof.
  revert s. induction infos as [|info infos IH]; intros s; [done|].
  rewrite signal_loop_cons. cbv zeta.
  destruct (delivered (process info) SIGTERM); [|done].
  case_bool_decide; [|done].
  cbn [after state_of]. etrans; [apply IH|]. cbn [set_files files].
  by apply subseteq_difference_l.
Qed.

(** A delivered first signal is followed by the deletion of the artifact,
    and a deletion that succeeds leaves no such file. *)
Lemma signal_loop_first delivered info rest s :
  let r := signal_loop delivered (info :: rest) s in
  (EvSignal (process info) SIGTERM ∈ events_of r) ∧
  (delivered (process info) SIGTERM = true →
   (EvUnlink (temp_file info) ∈ events_of r) ∧
   (temp_file info ∉ files s → outcome_of r = Raise OSError) ∧
   (temp_file info ∈ files s → temp_file info ∉ files (state_of r))).
Proof.
  intros r. subst r. rewrite signal_loop_cons. cbv zeta.
  destruct (delivered (process info) SIGTERM).
  - case_bool_decide as Hfile; cbn [after outcome_of state_of events_of].
    + split; [set_solver|]. intros _. split_and!; [set_solver|done|].
      intros _ Hin. apply signal_loop_files in Hin.
      cbn [set_files files] in Hin.
      apply elem_of_difference in Hin as [_ Hne]. by apply Hne, elem_of_singleton.
    + split; [set_solver|]. intros _. split_and!; [set_solver|done..].
  - split; [set_solver|done].
Qed.

(** C7, as the code has it.  The interrupt handler never removes a process
    record, so a second run of it starts over from the first record: it
    signals that record's process again and, when the signal is accepted,
    goes on to delete that record's artifact again; where the first run
    had deleted the artifact, the second run ends with the [OSError] of
    [os.unlink].  Only with no process record does a run signal and delete
    nothing. *)
Theorem signal_handler_repeats_C7 delivered1 delivered2 s :
  let r1 := signal_handler delivered1 s in
  let r2 := signal_handler delivered2 (state_of r1) in
  _process_info (state_of r1) = _process_info s ∧
  (_process_info s = [] → events_of r1 = [] ∧ events_of r2 = []) ∧
  (∀ info rest, _process_info s = info :: rest →
     (EvSignal (process info) SIGTERM ∈ events_of r1) ∧
     (EvSignal (process info) SIGTERM ∈ events_of r2) ∧
     (delivered1 (process info) SIGTERM = true →
      EvUnlink (temp_file info) ∈ events_of r1) ∧
     (delivered2 (process info) SIGTERM = true →
      EvUnlink (temp_file info) ∈ events_of r2) ∧
     (delivered1 (process info) SIGTERM = true →
      delivered2 (process info) SIGTERM = true →
      temp_file info ∈ files s →
      outcome_of r2 = Raise OSError)).
Proof.
  intros r1 r2.
  assert (_process_info (state_of r1) = _process_info s) as Hkept.
  { by apply (preserves_signal_handler _process_info). }
  assert (∀ d s0, signal_handler d s0 = signal_loop d (_process_info s0) s0)
    as Hrun.
  { intros d s0. unfold signal_handler.
    erewrite bind_Return by reflexivity.
    by destruct (signal_loop d (_process_info s0) s0). }
  subst r1 r2. rewrite !Hrun. rewrite Hrun in Hkept. rewrite Hkept.
  split_and!; [done| |].
  - intros ->. done.
  - intros info rest Hinfos. rewrite Hinfos.
    pose proof (signal_loop_first delivered1 info rest s) as [Hterm1 Hfirst1].
    pose proof (signal_loop_first delivered2 info rest
                  (state_of (signal_loop delivered1 (info :: rest) s)))
      as [Hterm2 Hfirst2].
    split_and!; [done|done| | |].
    + intros Hd. by apply Hfirst1.
    + intros Hd. by apply Hfirst2.
    + intros Hd1 Hd2 Hfile.
      destruct (Hfirst1 Hd1) as (_ & _ & Hgone).
      destruct (Hfirst2 Hd2) as (_ & Hraise & _).
      by apply Hraise, Hgone.
Qed.

Lemma signal_handler_repeats_C7_witness :
  let s := mkState [] [mkProcessInfo 42 "/tmp/tmpA"] {[ "/tmp/tmpA" ]} in
  let r1 := signal_handler (λ _ _, true) s in
  let r2 := signal_handler (λ _ _, true) (state_of r1) in
  (EvSignal 42 SIGTERM ∈ events_of r1) ∧
  (EvSignal 42 SIGTERM ∈ events_of r2) ∧
  (EvUnlink "/tmp/tmpA" ∈ events_of r1) ∧
  (EvUnlink "/tmp/tmpA" ∈ events_of r2) ∧
  outcome_of r2 = Raise OSError.
Proof.
  intros s r1 r2.
  destruct (proj2 (proj2 (signal_handler_repeats_C7 (λ _ _, true) (λ _ _, true) s))
              (mkProcessInfo 42 "/tmp/tmpA") [] eq_refl)
    as (H1 & H2 & H3 & H4 & H5).
  split_and!; [exact H1|exact H2|exact (H3 eq_refl)|exact (H4 eq_refl)|].
  apply H5; [reflexivity|reflexivity|].
  subst s. cbn [files]. by apply elem_of_singleton.
Defined.

(** C7 as it is stated fails: with one process record, whose artifact is
    on disk, the first run signals process 42 and deletes the artifact;
    the second run signals process 42 again and tries to delete the
    artifact, which is gone, again. *)
Lemma signal_handler_C7_counterexample :
  let s := mkState [] [mkProcessInfo 42 "/tmp/tmpA"] {[ "/tmp/tmpA" ]} in
  let r1 := signal_handler (λ _ _, true) s in
  let r2 := signal_handler (λ _ _, true) (state_of r1) in
  events_of r1 = [EvPrint "Pid: 42"; EvSignal 42 SIGTERM; EvSignal 42 SIGHUP;
                  EvUnlink "/tmp/tmpA"] ∧
  outcome_of r1 = Return tt ∧
  ("/tmp/tmpA" ∉ files (state_of r1)) ∧
  events_of r2 = [EvPrint "Pid: 42"; EvSignal 42 SIGTERM; EvSignal 42 SIGHUP;
                  EvUnlink "/tmp/tmpA"] ∧
  outcome_of r2 = Raise OSError ∧
  ¬ ((∀ path, EvUnlink path ∈ events_of r1 → EvUnlink path ∉ events_of r2) ∧
     (∀ pid sig sig', EvSignal pid sig ∈ events_of r1 →
                      EvSignal pid sig' ∉ events_of r2)).
Proof.
  intros s r1 r2.
  assert (events_of r1 = [EvPrint "Pid: 42"; EvSignal 42 SIGTERM;
                          EvSignal 42 SIGHUP; EvUnlink "/tmp/tmpA"]) as E1
    by (vm_compute; reflexivity).
  assert (events_of r2 = [EvPrint "Pid: 42"; EvSignal 42 SIGTERM;
                          EvSignal 42 SIGHUP; EvUnlink "/tmp/tmpA"]) as E2
    by (vm_compute; reflexivity).
  split_and!; [exact E1|vm_compute; reflexivity| |exact E2|vm_compute; reflexivity|].
  - apply (bool_decide_eq_false_1 ("/tmp/tmpA" ∈ files (state_of r1))).
    vm_compute. reflexivity.
  - intros [Hunlink _]. apply (Hunlink "/tmp/tmpA"); rewrite ?E1, ?E2;
      do 3 apply list_elem_of_further; apply list_elem_of_here.
Qed.

(** ** The ports of the launch text *)

Lemma launch_lines_entry name port :
  launch_line name port +:+ turtle_name_line name +:+ concert_whitelist_line
  +:+ rapp_whitelist_line +:+ launch_close_line
  = launch_entry name ("114" +:+ str port).
Proof.
  unfold launch_line, launch_entry. rewrite !string_app_assoc. reflexivity.
Qed.

Lemma launch_text_loop_spec turtles port launch_text tail :
  launch_text_loop turtles port launch_text +:+ tail
  = launch_text
    +:+ foldr (λ entry rest, launch_entry entry.1 entry.2 +:+ rest) tail
          (zip turtles ((λ p, "114" +:+ str p) <$> seq port (length turtles))).
Proof.
  revert port launch_text.
  induction turtles as [|name turtles IH]; intros port launch_text; [done|].
  cbn [launch_text_loop]. cbv zeta. rewrite IH, Nat.add_1_r.
  cbn [length seq fmap list_fmap zip zip_with foldr fst snd].
  rewrite <-launch_lines_entry. by rewrite !string_app_assoc.
Qed.

Lemma prepare_rocon_launch_text_spec turtles :
  prepare_rocon_launch_text turtles
  = concert_document (zip turtles (entry_port <$> seq 0 (length turtles))).
Proof.
  unfold prepare_rocon_launch_text, concert_document. cbv zeta.
  rewrite launch_text_loop_spec, string_app_assoc.
  replace ((λ p, "114" +:+ str p) <$> seq 11 (length turtles))
    with (entry_port <$> seq 0 (length turtles)); [done|].
  replace (seq 11 (length turtles)) with (Nat.add 11 <$> seq 0 (length turtles))
    by apply (fmap_add_seq 11 0).
  by rewrite <-list_fmap_compose.
Qed.

Global Instance entry_port_inj : Inj (=) (=) entry_port.
Proof.
  intros i j H. unfold entry_port in H.
  apply (inj (String.app "114")) in H. unfold str in H.
  apply (inj (pretty : nat → string)) in H. lia.
Qed.

(** Up to the 89th entry the port is the numeral of 11411 plus the
    position. *)
Lemma entry_port_numeral i :
  i < 89 → entry_port i = pretty (11411 + N.of_nat i)%N.
Proof.
  intros Hi.
  assert (forallb (λ i, bool_decide (entry_port i = pretty (11411 + N.of_nat i)%N))
            (seq 0 89) = true) as Hall by (vm_compute; reflexivity).
  rewrite forallb_forall in Hall.
  apply (bool_decide_eq_true_1 _), Hall, in_seq. lia.
Qed.

(** C8, as the code has it.  For the names "kobuki" and "guimul" the
    launch text has two entries with the ports 11411 and 11412.  For any
    names, the entry at position [i] has the port made of the digits 114
    and the numeral of [11 + i]: the ports of a batch are pairwise
    distinct, and up to the 89th entry they are the numbers 11411,
    11412, ... in order. *)
Theorem launch_ports_C8 :
  prepare_rocon_launch_text ["kobuki"; "guimul"]
  = concert_document [("kobuki", "11411"); ("guimul", "11412")] ∧
  (∀ turtles, prepare_rocon_launch_text turtles
              = concert_document
                  (zip turtles (entry_port <$> seq 0 (length turtles)))) ∧
  (∀ i, entry_port i = "114" +:+ str (11 + i)) ∧
  (∀ i j, entry_port i = entry_port j → i = j) ∧
  (∀ i, i < 89 → entry_port i = pretty (11411 + N.of_nat i)%N).
Proof.
  split_and!.
  - by rewrite prepare_rocon_launch_text_spec.
  - apply prepare_rocon_launch_text_spec.
  - done.
  - apply entry_port_inj.
  - apply entry_port_numeral.
Qed.

Lemma launch_ports_C8_witness : entry_port 1 = "11412".
Proof.
  apply (proj2 (proj2 (proj2 (proj2 launch_ports_C8))) 1). lia.
Defined.

(** C8 as it is stated fails: the launch text for "kobuki" and "guimul"
    is not the document with the ports 1141 and 1142, and holds neither
    port as the value of a [port] attribute; the values are 11411 and
    11412. *)
Lemma launch_ports_C8_counterexample :
  let text := prepare_rocon_launch_text ["kobuki"; "guimul"] in
  text ≠ concert_document [("kobuki", "1141"); ("guimul", "1142")] ∧
  String.index 0 ("port=" +:+ dq +:+ "1141" +:+ dq) text = None ∧
  String.index 0 ("port=" +:+ dq +:+ "1142" +:+ dq) text = None ∧
  String.index 0 ("port=" +:+ dq +:+ "11411" +:+ dq) text = Some 96 ∧
  String.index 0 ("port=" +:+ dq +:+ "11412" +:+ dq) text = Some 435.
Proof.
  intros text. split_and!; [|vm_compute; reflexivity..].
  intros Heq. apply (f_equal String.length) in Heq.
  vm_compute in Heq. discriminate Heq.
Qed.

(** * Further properties *)

(** ** The spawn handler *)

(** A free name is given as it is. *)
Lemma unique_name_free name s :
  name ∉ turtles s → unique_name name s = mkResult (Return name) s [].
Proof.
  intros Hout. destruct (unique_name_spec name s) as (j & Hrun & Hj & Hbelow).
  destruct j as [|j]; [by rewrite Hrun, candidate_0|].
  destruct Hout. rewrite <-(candidate_0 name). apply Hbelow. lia.
Qed.

(** X1.  When the backend answers a spawn request, the handler replies
    with a name that the registry did not hold, puts that name last in
    the registry, and has called the backend once, for that name, and
    then the gateway once, with the announcement (not the cancellation)
    of that name.  A gateway that fails adds a log line and nothing else:
    the reply and the registration stay. *)
Theorem spawn_answered_X1 flip x y theta name s :
  let r := _spawn_turtle_service Answered flip x y theta name s in
  ∃ assigned log,
    outcome_of r = Return assigned ∧
    (assigned ∉ turtles s) ∧
    state_of r = set_turtles (turtles s ++ [assigned]) s ∧
    events_of r = EvBackendSpawn x y theta assigned
                  :: EvGatewayFlip (flip_request assigned false) :: log ∧
    log = match flip with
          | Answered => []
          | Failed => [EvLogErr "TurtleHerder : failed to send flip rules"]
          | Interrupted =>
              [EvLogInfo
                 "TurtleHerder : shutdown while contacting the gateway flip service"]
          end.
Proof.
  intros r. subst r.
  destruct (unique_name_spec name s) as (j & Hrun & Hj & _).
  rewrite (spawn_run _ _ _ _ _ _ _ _ Hrun).
  exists (candidate name j). eexists. split_and!; [done|done|done| |reflexivity].
  by destruct flip.
Qed.

(** X2.  When the backend's spawn call is interrupted by a shutdown, the
    handler still returns a response, with the empty name: the registry is
    as it was, nothing is submitted to the gateway, and the one line that
    is logged is an information, not an error. *)
Theorem spawn_interrupted_X2 flip x y theta name s :
  let r := _spawn_turtle_service Interrupted flip x y theta name s in
  outcome_of r = Return EmptyString ∧
  state_of r = s ∧
  ∃ tried,
    (tried ∉ turtles s) ∧
    events_of r =
    [EvBackendSpawn x y theta tried;
     EvLogInfo
       "TurtleHerder : shutdown while contacting the internal spawn turtle service"].
Proof.
  intros r. subst r.
  destruct (unique_name_spec name s) as (j & Hrun & Hj & _).
  rewrite (spawn_run _ _ _ _ _ _ _ _ Hrun).
  split_and!; [done|done|]. by exists (candidate name j).
Qed.

(** X3.  The spawn handler never raises and its loop never runs on:
    whatever the registry, the requested name and the answers of backend
    and gateway, it returns a reply, and the reply is the empty name or
    the name that the call has put last in the registry. *)
Theorem spawn_always_returns_X3 backend flip x y theta name s :
  let r := _spawn_turtle_service backend flip x y theta name s in
  ∃ reply_name,
    outcome_of r = Return reply_name ∧
    ((reply_name = EmptyString ∧ state_of r = s) ∨
     (turtles (state_of r) = turtles s ++ [reply_name])).
Proof.
  intros r. subst r.
  destruct (unique_name_spec name s) as (j & Hrun & Hj & _).
  rewrite (spawn_run _ _ _ _ _ _ _ _ Hrun).
  destruct backend.
  - exists (candidate name j). split; [done|]. by right.
  - exists EmptyString. split; [done|]. by left.
  - exists EmptyString. split; [done|]. by left.
Qed.

(** X4.  A spawn request for the empty name, on a registry that does not
    hold it and with a backend that answers, registers the empty name and
    replies with it: the reply of this success is the reply of a
    failure. *)
Theorem spawn_empty_name_X4 flip x y theta s :
  EmptyString ∉ turtles s →
  let ok := _spawn_turtle_service Answered flip x y theta EmptyString s in
  let ko := _spawn_turtle_service Failed flip x y theta EmptyString s in
  outcome_of ok = Return EmptyString ∧
  outcome_of ok = outcome_of ko ∧
  turtles (state_of ok) = turtles s ++ [EmptyString] ∧
  turtles (state_of ko) = turtles s.
Proof.
  intros Hfree ok ko. subst ok ko.
  pose proof (unique_name_free EmptyString s Hfree) as Hrun.
  rewrite <-(candidate_0 EmptyString) in Hrun at 2.
  rewrite !(spawn_run _ _ _ _ _ _ _ _ Hrun). done.
Qed.

Lemma spawn_empty_name_X4_witness :
  let ok := _spawn_turtle_service Answered Answered (QArith_base.Qmake 5 1)
              (QArith_base.Qmake 4 1) (QArith_base.Qmake 1 2) EmptyString
              (mkState ["kobuki"] [] ∅) in
  outcome_of ok = Return EmptyString ∧
  turtles (state_of ok) = ["kobuki"; EmptyString].
Proof.
  intros ok.
  destruct (spawn_empty_name_X4 Answered (QArith_base.Qmake 5 1)
              (QArith_base.Qmake 4 1) (QArith_base.Qmake 1 2)
              (mkState ["kobuki"] [] ∅)) as (H1 & _ & H3 & _).
  - cbn [turtles]. rewrite list_elem_of_singleton. discriminate.
  - split; [exact H1|exact H3].
Defined.

(** X5.  The name loop ends after at most as many rounds as the registry
    has names: the candidate that it ends on, the requested name itself
    being candidate 0 and the name with [_c] candidate [c + 1], has a
    number that is no larger than the length of the registry. *)
Theorem unique_name_bound_X5 name s :
  ∃ j, j ≤ length (turtles s) ∧
       unique_name name s = mkResult (Return (candidate name j)) s [] ∧
       (candidate name j ∉ turtles s).
Proof.
  destruct (unique_name_spec name s) as (j & Hrun & Hj & Hbelow).
  exists j. split_and!; [|done..].
  assert (candidate name <$> seq 0 j ⊆+ turtles s) as Hsub.
  { apply NoDup_submseteq.
    - apply (NoDup_fmap_2 _), NoDup_seq.
    - intros u (i & -> & Hi%elem_of_seq)%list_elem_of_fmap. apply Hbelow. lia. }
  apply submseteq_length in Hsub. by rewrite length_fmap, length_seq in Hsub.
Qed.

(** ** The names of a batch *)

Lemma batch_names_run names s :
  ∃ l, batch_names names s = mkResult (Return l) s [] ∧
       Forall2 (λ n u, unique_name n s = mkResult (Return u) s []) names l.
Proof.
  induction names as [|name names (l & Hrun & Hall)]; [by exists []|].
  destruct (unique_name_spec name s) as (j & Hj & _).
  exists (candidate name j :: l). split; [|by constructor].
  cbn [batch_names]. erewrite bind_Return by exact Hj.
  erewrite bind_Return by exact Hrun. reflexivity.
Qed.

(** X6.  The first loop of the batch spawn (lines 163-170) computes one
    name per requested name, in order, and each one as the spawn handler
    would for that name alone on the registry as it is: none of the names
    is in the registry, but a name that is requested twice in one batch
    is computed twice, the same. *)
Theorem batch_names_X6 names s :
  ∃ l, batch_names names s = mkResult (Return l) s [] ∧
       length l = length names ∧
       (∀ i n, names !! i = Some n →
          ∃ u, l !! i = Some u ∧ (u ∉ turtles s) ∧
               unique_name n s = mkResult (Return u) s []) ∧
       (∀ i j n, names !! i = Some n → names !! j = Some n → l !! i = l !! j).
Proof.
  destruct (batch_names_run names s) as (l & Hrun & Hall).
  assert (∀ i n, names !! i = Some n →
            ∃ u, l !! i = Some u ∧ (u ∉ turtles s) ∧
                 unique_name n s = mkResult (Return u) s []) as Heach.
  { intros i n Hn.
    destruct (Forall2_lookup_l _ _ _ _ _ Hall Hn) as (u & Hu & Hname).
    exists u. split_and!; [done| |done].
    destruct (unique_name_spec n s) as (j & Hj & Hout & _).
    rewrite Hj in Hname. by injection Hname as <-. }
  exists l. split_and!; [done|by rewrite (Forall2_length _ _ _ Hall)|done|].
  intros i j n Hi Hj.
  destruct (Heach i n Hi) as (u & -> & _ & Hu).
  destruct (Heach j n Hj) as (v & -> & _ & Hv).
  rewrite Hu in Hv. by injection Hv as ->.
Qed.

(** ** The registry and the disk over a run *)

Lemma step_registered s c : turtles (step s c) = turtles s ++ registered_by c s.
Proof.
  destruct c as [backend flip x y theta name|backend flip name
                |tmp hydro launched names|answers|delivered];
    unfold step, registered_by.
  - destruct (unique_name_spec name s) as (j & Hrun & _).
    destruct backend; rewrite !(spawn_run _ _ _ _ _ _ _ _ Hrun);
      cbn [state_of outcome_of set_turtles turtles]; by rewrite ?app_nil_r.
  - by rewrite kill_run, app_nil_r.
  - by rewrite spawn_turtles_run, app_nil_r.
  - rewrite app_nil_r. apply (preserves_shutdown turtles).
  - rewrite app_nil_r. by apply preserves_signal_handler.
Qed.

Lemma run_registered calls s :
  turtles (run calls s) = turtles s ++ registered calls s.
Proof.
  revert s. induction calls as [|c calls IH]; intros s.
  - by rewrite app_nil_r.
  - cbn [run foldl registered]. fold (run calls (step s c)).
    by rewrite IH, step_registered, app_assoc.
Qed.

Lemma registered_by_fresh c s :
  registered_by c s = [] ∨
  ∃ assigned, registered_by c s = [assigned] ∧ (assigned ∉ turtles s).
Proof.
  destruct c as [backend flip x y theta name| | | |]; try by left.
  destruct backend; try by left.
  destruct (unique_name_spec name s) as (j & Hrun & Hj & _).
  right. exists (candidate name j). split; [|done].
  unfold registered_by. by rewrite (spawn_run _ _ _ _ _ _ _ _ Hrun).
Qed.

(** X7.  At any time the registry is the list of the names that were
    replied to the spawn requests that the backend answered, in the order
    of the requests: no other call puts a name into the registry and no
    call, the kill request included, takes one out.  The names so added
    differ from one another and from the names that were there. *)
Theorem registry_is_the_answered_spawns_X7 calls s :
  turtles (run calls s) = turtles s ++ registered calls s ∧
  NoDup (registered calls s) ∧
  (∀ assigned, assigned ∈ registered calls s → assigned ∉ turtles s).
Proof.
  split; [apply run_registered|].
  revert s. induction calls as [|c calls IH]; intros s.
  - split; [apply NoDup_nil_2|]. intros assigned Hin. by apply elem_of_nil in Hin.
  - cbn [registered]. destruct (IH (step s c)) as [Hnodup Hfresh].
    rewrite step_registered in Hfresh.
    destruct (registered_by_fresh c s) as [Hnone|(first & Hone & Hfirst)].
    + rewrite Hnone in Hfresh |- *. split; [done|]. intros assigned Hin.
      specialize (Hfresh assigned Hin). by rewrite app_nil_r in Hfresh.
    + rewrite Hone in Hfresh |- *. split.
      * apply NoDup_cons. split; [|done]. intros Hin.
        apply (Hfresh first Hin), elem_of_app. right. apply list_elem_of_here.
      * intros assigned [->|Hin]%elem_of_cons; [done|].
        intros Hold. apply (Hfresh assigned Hin), elem_of_app. by left.
Qed.

(** The interrupt handler of a herder without process records does
    nothing. *)
Lemma signal_handler_no_record delivered s :
  _process_info s = [] →
  signal_handler delivered s = mkResult (Return tt) s [].
Proof.
  intros Hnone. unfold signal_handler.
  erewrite bind_Return by reflexivity. by rewrite Hnone.
Qed.

Lemma step_files s c :
  _process_info s = [] →
  files (step s c) = files s ∪ list_to_set (temp_files_of [c]).
Proof.
  intros Hnone.
  destruct c as [backend flip x y theta name|backend flip name
                |tmp hydro launched names|answers|delivered];
    unfold step, temp_files_of; cbn [omap list_omap list_to_set];
    rewrite ?(right_id_L ∅ (∪)).
  - destruct (unique_name_spec name s) as (j & Hrun & _).
    rewrite (spawn_run _ _ _ _ _ _ _ _ Hrun). by destruct backend.
  - by rewrite kill_run.
  - rewrite spawn_turtles_run. cbn [state_of set_files files].
    apply (comm_L (∪)).
  - apply (preserves_shutdown files).
  - by rewrite signal_handler_no_record.
Qed.

(** X8.  The temporary file of a batch spawn is never deleted: after any
    row of calls to a new herder, the files on disk are the temporary
    files that its batch spawns have made, all of them. *)
Theorem temp_files_stay_X8 calls :
  files (run calls init_state) = list_to_set (temp_files_of calls).
Proof.
  assert (∀ s, _process_info s = [] →
               files (run calls s) = files s ∪ list_to_set (temp_files_of calls))
    as Hgen.
  { induction calls as [|c calls IH]; intros s Hnone.
    - cbn [run foldl temp_files_of omap list_omap list_to_set].
      by rewrite (right_id_L ∅ (∪)).
    - cbn [run foldl]. fold (run calls (step s c)).
      rewrite IH by (by rewrite step_process_info).
      rewrite step_files by done.
      change (c :: calls) with ([c] ++ calls).
      unfold temp_files_of at 3. rewrite omap_app, list_to_set_app_L.
      by rewrite (assoc_L (∪)). }
  rewrite Hgen by done. cbn [init_state files]. by rewrite (left_id_L ∅ (∪)).
Qed.

(** X9.  Since no call ever makes a process record, the interrupt handler
    of the running herder does nothing at all: after any row of calls it
    returns at once, signals no process and deletes no file. *)
Theorem signal_handler_idle_X9 calls delivered :
  signal_handler delivered (run calls init_state)
  = mkResult (Return tt) (run calls init_state) [].
Proof. apply signal_handler_no_record, run_process_info. Qed.

(** ** Shutdown, whatever the backend answers *)

Lemma shutdown_loop_prefix answers i names s :
  ∃ n, n ≤ length names ∧ (n = 0 ↔ names = []) ∧
       shutdown_loop answers i names s
       = mkResult (Return tt) s (EvBackendKill <$> take n names).
Proof.
  revert i. induction names as [|name names IH]; intros i.
  - by exists 0.
  - rewrite shutdown_loop_cons. destruct (answers i).
    + destruct (IH (S i)) as (n & Hn & _ & ->).
      exists (S n). split_and!; [simpl; lia|done|done].
    + exists 1. split_and!; [simpl; lia|done|done].
    + exists 1. split_and!; [simpl; lia|done|done].
Qed.

(** X10.  Shutdown never raises and never takes a name out of the
    registry, not even the names whose kill the backend has answered: it
    leaves the herder as it found it.  Its calls are kills of the first
    names of the registry, in order, and of at least one name when there
    is one. *)
Theorem shutdown_keeps_registry_X10 answers s :
  ∃ n, n ≤ length (turtles s) ∧ (n = 0 ↔ turtles s = []) ∧
       shutdown answers s
       = mkResult (Return tt) s (EvBackendKill <$> take n (turtles s)).
Proof.
  destruct (shutdown_loop_prefix answers 0 (turtles s) s) as (n & Hn & Hzero & Hrun).
  exists n. split_and!; [done..|].
  unfold shutdown. erewrite bind_Return by reflexivity. by rewrite Hrun.
Qed.

(** ** The interrupt handler on process records *)

(** The loop over records whose first signal is accepted and whose
    artifacts are on disk, each under a path of its own. *)
Lemma signal_loop_prefix delivered done rest s :
  (∀ info, info ∈ done → delivered (process info) SIGTERM = true) →
  NoDup (temp_file <$> done) →
  (∀ info, info ∈ done → temp_file info ∈ files s) →
  signal_loop delivered (done ++ rest) s
  = after (concat (teardown_events delivered <$> done))
      (signal_loop delivered rest
         (set_files (files s ∖ list_to_set (temp_file <$> done)) s)).
Proof.
  revert s. induction done as [|info done IH]; intros s Hterm Hdup Hdisk.
  - cbn [app fmap list_fmap concat list_to_set].
    rewrite difference_empty_L. destruct s as [t p f]. cbn [set_files].
    by destruct (signal_loop delivered rest _).
  - cbn [app]. rewrite signal_loop_cons. cbv zeta.
    rewrite (Hterm info) by apply list_elem_of_here.
    rewrite bool_decide_eq_true_2 by (apply Hdisk, list_elem_of_here).
    cbn [fmap list_fmap] in Hdup. apply NoDup_cons in Hdup as [Hfresh Hdup].
    rewrite IH; [|intros; apply Hterm; by apply list_elem_of_further|done|].
    + rewrite after_after. cbn [fmap list_fmap concat list_to_set].
      cbn [set_files files turtles _process_info].
      rewrite (difference_difference_l_L (files s)). f_equal.
    + intros info' Hin. cbn [set_files files].
      apply elem_of_difference. split; [apply Hdisk; by apply list_elem_of_further|].
      intros Heq%elem_of_singleton. apply Hfresh. rewrite <-Heq.
      by apply list_elem_of_fmap_2.
Qed.

(** X11.  When the system accepts the first signal for every recorded
    process and every artifact is on disk under a path of its own, the
    interrupt handler goes through all the records in order: for each it
    prints the pid, sends the two signals and deletes the artifact, a
    refused second signal being printed and passed over.  It returns, the
    artifacts are gone from the disk, and the records are kept. *)
Theorem teardown_complete_X11 delivered s :
  (∀ info, info ∈ _process_info s → delivered (process info) SIGTERM = true) →
  NoDup (temp_file <$> _process_info s) →
  (∀ info, info ∈ _process_info s → temp_file info ∈ files s) →
  signal_handler delivered s
  = mkResult (Return tt)
      (set_files (files s ∖ list_to_set (temp_file <$> _process_info s)) s)
      (concat (teardown_events delivered <$> _process_info s)).
Proof.
  intros Hterm Hdup Hdisk. unfold signal_handler.
  erewrite bind_Return by reflexivity.
  rewrite <-(app_nil_r (_process_info s)) at 1.
  rewrite signal_loop_prefix by done.
  cbn [signal_loop]. unfold after, ret. cbn [outcome_of state_of events_of].
  by rewrite app_nil_r.
Qed.

Lemma teardown_complete_X11_witness :
  signal_handler (λ _ sig, match sig with SIGTERM => true | SIGHUP => false end)
    (mkState ["kobuki"] [mkProcessInfo 42 "/tmp/tmpA"; mkProcessInfo 43 "/tmp/tmpB"]
       {[ "/tmp/tmpA"; "/tmp/tmpB"; "/tmp/other" ]})
  = mkResult (Return tt)
      (mkState ["kobuki"] [mkProcessInfo 42 "/tmp/tmpA"; mkProcessInfo 43 "/tmp/tmpB"]
         {[ "/tmp/other" ]})
      [EvPrint "Pid: 42"; EvSignal 42 SIGTERM; EvSignal 42 SIGHUP;
       EvPrint "OSERROR on SIGHUP"; EvUnlink "/tmp/tmpA";
       EvPrint "Pid: 43"; EvSignal 43 SIGTERM; EvSignal 43 SIGHUP;
       EvPrint "OSERROR on SIGHUP"; EvUnlink "/tmp/tmpB"].
Proof.
  rewrite teardown_complete_X11.
  - vm_compute. reflexivity.
  - intros info _. reflexivity.
  - apply (bool_decide_unpack _). vm_compute. exact I.
  - intros info Hin. apply (bool_decide_unpack _).
    apply elem_of_cons in Hin as [->|Hin]; [vm_compute; exact I|].
    apply list_elem_of_singleton in Hin as ->. vm_compute. exact I.
Defined.

(** X12.  The first signal is sent outside the [try] block: when the
    system refuses it for a record, the handler ends there with the
    [OSError].  The records before it have been torn down; the artifact of
    that record and of every record after it stays on disk, and no record
    after it is signalled. *)
Theorem teardown_aborts_X12 delivered s done info rest :
  _process_info s = done ++ info :: rest →
  (∀ info', info' ∈ done → delivered (process info') SIGTERM = true) →
  NoDup (temp_file <$> done) →
  (∀ info', info' ∈ done → temp_file info' ∈ files s) →
  delivered (process info) SIGTERM = false →
  signal_handler delivered s
  = mkResult (Raise OSError)
      (set_files (files s ∖ list_to_set (temp_file <$> done)) s)
      (concat (teardown_events delivered <$> done)
       ++ [EvPrint ("Pid: " +:+ str (process info));
           EvSignal (process info) SIGTERM]).
Proof.
  intros Hinfos Hterm Hdup Hdisk Hrefused. unfold signal_handler.
  erewrite bind_Return by reflexivity. rewrite Hinfos.
  rewrite signal_loop_prefix by done.
  rewrite signal_loop_cons. cbv zeta. by rewrite Hrefused.
Qed.

Lemma teardown_aborts_X12_witness :
  signal_handler (λ pid _, bool_decide (pid = 42))
    (mkState [] [mkProcessInfo 42 "/tmp/tmpA"; mkProcessInfo 43 "/tmp/tmpB";
                 mkProcessInfo 44 "/tmp/tmpC"]
       {[ "/tmp/tmpA"; "/tmp/tmpB"; "/tmp/tmpC" ]})
  = mkResult (Raise OSError)
      (mkState [] [mkProcessInfo 42 "/tmp/tmpA"; mkProcessInfo 43 "/tmp/tmpB";
                   mkProcessInfo 44 "/tmp/tmpC"]
         {[ "/tmp/tmpB"; "/tmp/tmpC" ]})
      [EvPrint "Pid: 42"; EvSignal 42 SIGTERM; EvSignal 42 SIGHUP;
       EvUnlink "/tmp/tmpA"; EvPrint "Pid: 43"; EvSignal 43 SIGTERM].
Proof.
  rewrite (teardown_aborts_X12 _ _ [mkProcessInfo 42 "/tmp/tmpA"]
             (mkProcessInfo 43 "/tmp/tmpB") [mkProcessInfo 44 "/tmp/tmpC"]).
  - vm_compute. reflexivity.
  - reflexivity.
  - intros info' ->%list_elem_of_singleton. reflexivity.
  - apply (bool_decide_unpack _). vm_compute. exact I.
  - intros info' ->%list_elem_of_singleton. apply (bool_decide_unpack _).
    vm_compute. exact I.
  - reflexivity.
Defined.

(** ** The routing rules *)






(** ** Construction and the launch point *)

(** The construction, case by case. *)
Lemma init_run a s :
  __init__ a s =
  let s0 := mkState [] [] (files s) in
  match wait_kill a, wait_spawn a with
  | Returns, Returns =>
      let evs := EvBackendKill "turtle1" :: first_kill_log (first_kill a) in
      match first_kill a with
      | Interrupted => mkResult (Return (take 4 instance_attributes)) s0 evs
      | _ =>
          match resolve_gateway a, wait_flip a with
          | Returns, Returns => mkResult (Return instance_attributes) s0 evs
          | Returns, Raises e => mkResult (Raise e) s0 evs
          | Returns, Blocks => mkResult OutOfFuel s0 evs
          | Raises e, _ => mkResult (Raise e) s0 evs
          | Blocks, _ => mkResult OutOfFuel s0 evs
          end
      end
  | Returns, Raises e => mkResult (Raise e) s0 []
  | Returns, Blocks => mkResult OutOfFuel s0 []
  | Raises e, _ => mkResult (Raise e) s0 []
  | Blocks, _ => mkResult OutOfFuel s0 []
  end.
Proof.
  destruct a as [wk ws fk rg wf]. cbn [wait_kill wait_spawn first_kill
                                       resolve_gateway wait_flip].
  destruct wk; [|reflexivity..].
  destruct ws; [|reflexivity..].
  destruct fk; [|..|reflexivity]; (destruct rg; [|reflexivity..]);
    destruct wf; reflexivity.
Qed.

(** X14.  Construction empties the registry and the process records
    first.  When one of the two waits for the backend services (lines
    91-92, no timeout, outside any [try]) raises or never returns, the
    constructor does not return and the backend is not called.  When both
    return, the backend is called once, to kill "turtle1", and that is the
    only call: a communication failure is logged as an error and passed
    over, an interrupt is logged as an information.  After an interrupt
    the constructor returns early, with the first four attributes only;
    after an answer or a failure it returns, then with all its seven
    attributes, exactly when the look-up of the gateway and the wait for
    its service (lines 107-108) both return. *)
Theorem init_X14 a s :
  let r := __init__ a s in
  state_of r = mkState [] [] (files s) ∧
  (wait_kill a ≠ Returns ∨ wait_spawn a ≠ Returns →
   events_of r = [] ∧ ∀ attrs, outcome_of r ≠ Return attrs) ∧
  (wait_kill a = Returns → wait_spawn a = Returns →
   events_of r = EvBackendKill "turtle1" :: first_kill_log (first_kill a) ∧
   (first_kill a = Failed →
    events_of r =
    [EvBackendKill "turtle1";
     EvLogErr "Turtle Herder : failed to contact the internal kill turtle service"]) ∧
   (first_kill a = Interrupted →
    outcome_of r = Return ["turtles"; "_process_info";
                           "_kill_turtle_service_client";
                           "_spawn_turtle_service_client"]) ∧
   (first_kill a ≠ Interrupted →
    ∀ attrs, outcome_of r = Return attrs ↔
             attrs = instance_attributes ∧
             resolve_gateway a = Returns ∧ wait_flip a = Returns)).
Proof.
  intros r. subst r. rewrite init_run. cbv zeta.
  destruct a as [wk ws fk rg wf]. cbn [wait_kill wait_spawn first_kill
                                       resolve_gateway wait_flip].
  split_and!.
  - destruct wk, ws; try reflexivity;
      destruct fk; try reflexivity; destruct rg, wf; reflexivity.
  - intros Hwait.
    destruct wk; [destruct ws; [by destruct Hwait|..]|..];
      (split; [reflexivity|intros attrs; discriminate]).
  - intros -> ->. split_and!.
    + destruct fk; [|..|reflexivity]; destruct rg, wf; reflexivity.
    + intros ->. destruct rg, wf; reflexivity.
    + intros ->. reflexivity.
    + intros Hfk attrs. destruct fk; [| |done];
        destruct rg, wf; cbn [outcome_of]; split;
        first [by intros [= <-] | by intros (-> & _ & _)
              | discriminate | by intros (_ & ? & ?)].
Qed.

Lemma init_X14_witness :
  let a := mkInitAnswers Returns Returns Failed Returns Returns in
  events_of (__init__ a init_state) =
  [EvBackendKill "turtle1";
   EvLogErr "Turtle Herder : failed to contact the internal kill turtle service"] ∧
  outcome_of (__init__ a init_state) = Return instance_attributes.
Proof.
  intros a.
  destruct (proj2 (proj2 (init_X14 a init_state)) eq_refl eq_refl)
    as (_ & Hlog & _ & Hattrs).
  split; [exact (Hlog eq_refl)|].
  apply Hattrs; [discriminate|]. split_and!; reflexivity.
Defined.



(** ** The submission of routing rules, and shutdown after a run *)

(** X16.  The submission of routing rules never raises and leaves the
    herder as it is, whatever the gateway answers: a failure or an
    interrupt is logged and passed over.  The gateway is called once, not
    again after a failure, with one request that carries the flag as it
    was given and two rules under the agent's name: the subscriber rule of
    the command path, then the publisher rule of the pose path. *)
Theorem send_flip_rules_X16 flip name cancel_flag s :
  let r := _send_flip_rules_request flip name cancel_flag s in
  outcome_of r = Return tt ∧
  state_of r = s ∧
  ∃ request log,
    events_of r = EvGatewayFlip request :: log ∧
    (∀ other, EvGatewayFlip other ∉ log) ∧
    (flip = Answered ↔ log = []) ∧
    cancel request = cancel_flag ∧
    gateway <$> remotes request = [name; name] ∧
    rule <$> remotes request =
    [mkRule EmptyString SUBSCRIBER ("/services/turtlesim/" +:+ name +:+ "/cmd_vel");
     mkRule EmptyString PUBLISHER ("/services/turtlesim/" +:+ name +:+ "/pose")].
Proof.
  intros r. subst r. rewrite send_flip_run.
  cbn [outcome_of state_of events_of]. split_and!; [done|done|].
  exists (flip_request name cancel_flag). eexists.
  split_and!; [reflexivity| | |done..].
  - intros other Hin. destruct flip;
      [by apply elem_of_nil in Hin
      |apply list_elem_of_singleton in Hin; discriminate Hin..].
  - by destruct flip.
Qed.

(** X17.  A shutdown after any row of calls to a new herder, with a
    backend that answers, kills the names that were replied to the
    answered spawn requests, each once and in the order of the requests,
    and nothing else. *)
Theorem shutdown_after_run_X17 calls :
  shutdown (λ _, Answered) (run calls init_state)
  = mkResult (Return tt) (run calls init_state)
      (EvBackendKill <$> registered calls init_state) ∧
  NoDup (registered calls init_state).
Proof.
  split.
  - unfold shutdown. erewrite bind_Return by reflexivity.
    rewrite shutdown_loop_all by done.
    rewrite run_registered. unfold after.
    cbn [outcome_of state_of events_of init_state turtles app]. done.
  - pose proof (run_NoDup calls init_state (NoDup_nil_2)) as Hnodup.
    by rewrite run_registered in Hnodup.
Qed.
